(** * Public link shares: the SQL share manager of reva

    A shallow embedding of [pkg/publicshare/manager/sql] (package [sql]):
    the [oc_share] table is a list of rows, every SQL statement of the
    manager is the list operation it denotes, and every operation takes the
    table and the reading of the clock and returns its result together with
    the table it leaves behind.

    Conventions of the model.
    - A [time.Time] is the number of nanoseconds since the Unix epoch, and
      [time.Unix] builds it with the wrap-around of its int64 seconds; a
      DATETIME column holds whole seconds since the epoch.  The server, the
      database and the textual DATETIME renderings all live in UTC.
    - One operation reads one value of the clock ([now]).
    - The store never fails: driver and connectivity errors are outside the
      model, so [Prepare], [Exec], [Query] and [Scan] always succeed.
    - A text column equals a bound parameter when the two strings are equal;
      the primary key is compared through its decimal text.
    - Libraries that are not part of the repository (bcrypt, the gateway
      client) and the signing helper of package [publicshare] are taken as
      parameters, see [Externals].

    Beside the manager the file embeds what surrounds it on the way of a
    public share request: the URL helpers of [pkg/rhttp/utils] and the
    handler choice of the tracing middleware, the registry of tracer
    providers, the static auth registry, the credential strategy of public
    shares and the auth provider service. *)

From Stdlib Require Import ZArith List String Ascii Bool Lia DecimalString.
Import ListNotations.
Local Open Scope string_scope.
Local Open Scope list_scope.
Local Open Scope Z_scope.

(** ** Errors and results *)

Inductive error : Type :=
| NotFound                 (* errtypes.NotFound *)
| InvalidCredentials       (* errtypes.InvalidCredentials *)
| Err (msg : string)       (* any other error value *)
| Panic.                   (* nil dereference at run time *)

Inductive result (A : Type) : Type :=
| Ok (a : A)
| Error (e : error).
Arguments Ok {A} a.
Arguments Error {A} e.

Definition is_ok {A} (r : result A) : bool :=
  match r with Ok _ => true | Error _ => false end.

(** ** Machine integers and time *)

Definition int64 (z : Z) : Z := (z + 2 ^ 63) mod 2 ^ 64 - 2 ^ 63.
Definition uint64 (z : Z) : Z := z mod 2 ^ 64.
Definition in_int64 (z : Z) : Prop := - 2 ^ 63 <= z < 2 ^ 63.

Definition Time : Type := Z.
Definition second : Z := 1000000000.

(* The seconds from January 1 of year 1, where a time.Time counts from, to
   the Unix epoch. *)
Definition unixToInternal : Z := 62135596800.

(* time.Unix(sec, nsec): whole seconds of [nsec] are carried into [sec], the
   seconds are kept as an int64 counted from year 1, and both additions wrap
   around as int64 additions do. *)
Definition time_Unix (sec nsec : Z) : Time :=
  (int64 (int64 (sec + nsec / second) + unixToInternal) - unixToInternal) * second
  + nsec mod second.
(* t.Before(u), t.After(u), t.Unix() *)
Definition Before (t u : Time) : bool := t <? u.
Definition After (t u : Time) : bool := u <? t.
Definition Unix (t : Time) : Z := t / second.

(* The hour shown by the layout element "03": the twelve-hour clock. *)
Definition hour12 (h : Z) : Z := if h mod 12 =? 0 then 12 else h mod 12.
Definition hour_of_day (s : Z) : Z := (s mod 86400) / 3600.

(* The DATETIME denoted by time.Now().Format("2006-01-02 03:04:05"): date,
   minute and second of [t], and its hour on the twelve-hour clock. *)
Definition Format_2006_01_02_03_04_05 (t : Time) : Z :=
  let s := Unix t in
  s - hour_of_day s * 3600 + hour12 (hour_of_day s) * 3600.

(** ** Strings *)

(* strings.HasPrefix(s, p) *)
Definition HasPrefix (s p : string) : bool := String.prefix p s.

(* strings.TrimPrefix(s, p) *)
Definition TrimPrefix (s p : string) : string :=
  if HasPrefix s p
  then String.substring (String.length p) (String.length s - String.length p) s
  else s.

(* strings.SplitN(s, sep, n) for a one-character separator and n > 0:
   at most [n] pieces, the last one being the unsplit remainder. *)
Fixpoint SplitN_aux (sep : ascii) (s : string) (n : nat) (cur : string) : list string :=
  match s with
  | EmptyString => [cur]
  | String ch rest =>
      match n with
      | O => [String.append cur s]
      | S n' =>
          if Ascii.eqb ch sep
          then cur :: SplitN_aux sep rest n' EmptyString
          else SplitN_aux sep rest n (String.append cur (String ch EmptyString))
      end
  end.

Definition SplitN (s : string) (sep : ascii) (n : nat) : list string :=
  match n with
  | O => []
  | S n' => SplitN_aux sep s n' EmptyString
  end.

(* strconv.ParseBool: the value; the error is dropped by the caller *)
Definition ParseBool (s : string) : bool :=
  existsb (String.eqb s) ["1"; "t"; "T"; "TRUE"; "true"; "True"].

(* strconv.ParseUint(s, 10, 64): [None] stands for the error *)
Definition digit_of (ch : ascii) : option Z :=
  let n := Z.of_nat (nat_of_ascii ch) in
  if (48 <=? n) && (n <=? 57) then Some (n - 48) else None.

Fixpoint ParseUint_aux (s : string) (acc : Z) : option Z :=
  match s with
  | EmptyString => Some acc
  | String ch rest =>
      match digit_of ch with
      | Some d => ParseUint_aux rest (acc * 10 + d)
      | None => None
      end
  end.

Definition ParseUint (s : string) : option Z :=
  match s with
  | EmptyString => None
  | _ =>
      match ParseUint_aux s 0 with
      | Some v => if v <? 2 ^ 64 then Some v else None
      | None => None
      end
  end.

(* strconv.FormatInt(i, 10) *)
Definition FormatInt (i : Z) : string := NilZero.string_of_int (Z.to_int i).

(* m[key] on a map[string]string: the value and the presence flag *)
Fixpoint lookup (m : list (string * string)) (key : string) : option string :=
  match m with
  | [] => None
  | (k, v) :: m' => if String.eqb k key then Some v else lookup m' key
  end.

(** ** Messages of the CS3 APIs used by the manager *)

Module typespb.
Record Timestamp : Type := { Seconds : Z (* uint64 *); Nanos : Z (* uint32 *) }.
End typespb.

Module user.
Record UserId : Type := { Idp : string; OpaqueId : string }.
Record User : Type := { Id : UserId; Groups : list string }.
End user.

Module provider.
Record ResourceId : Type := { StorageId : string; OpaqueId : string }.
(* The part of a StatResponse the manager looks at. *)
Record StatResponse : Type := { StatusOK : bool; Path : string }.
(* The part of a ResourceInfo that CreatePublicShare reads; [ItemType] is
   the resource type as conversions.ResourceTypeToItem renders it. *)
Record ResourceInfo : Type := {
  Id : ResourceId;
  Owner : user.UserId;
  ItemType : string;
  Metadata : list (string * string)
}.
End provider.

Module link.
Record ShareSignature : Type :=
  { Signature : string; SignatureExpiration : typespb.Timestamp }.

Record PublicShare : Type := {
  Id : string;
  Token : string;
  ResourceId : provider.ResourceId;
  Permissions : Z;
  Owner : user.UserId;
  Creator : user.UserId;
  Ctime : typespb.Timestamp;
  Mtime : typespb.Timestamp;
  PasswordProtected : bool;
  Expiration : option typespb.Timestamp;
  DisplayName : string;
  Quicklink : bool;
  Description : string;
  Sig : option ShareSignature   (* field Signature *)
}.

(* PublicShareReference: GetId() and GetToken() *)
Inductive PublicShareReference : Type :=
| RefId (OpaqueId : string)
| RefToken (token : string)
| RefNone.

(* PublicShareAuthentication as seen through GetPassword() and
   GetSignature(); a nil message reads as the empty password and no
   signature. *)
Record PublicShareAuthentication : Type :=
  { GetPassword : string; GetSignature : option ShareSignature }.

Record Grant : Type := {
  GrantPermissions : option Z;
  Password : string;
  GrantExpiration : option typespb.Timestamp
}.

Inductive UpdateType : Type :=
| TYPE_INVALID | TYPE_PERMISSIONS | TYPE_PASSWORD | TYPE_EXPIRATION
| TYPE_DISPLAYNAME | TYPE_DESCRIPTION.

Record Update : Type := {
  Type_ : UpdateType;
  GetGrant : option Grant;
  GetDisplayName : string;
  GetDescription : string
}.

Record UpdatePublicShareRequest : Type :=
  { Ref : PublicShareReference; GetUpdate : option Update }.

Inductive Filter : Type :=
| TYPE_RESOURCE_ID (r : provider.ResourceId)
| TYPE_OWNER (o : user.UserId)
| TYPE_CREATOR (c : user.UserId)
| TYPE_OTHER.
End link.

(** ** The table [oc_share] *)

Record Row : Type := {
  id : string;                      (* primary key, as its decimal text *)
  share_type : Z;
  uid_owner : option string;
  uid_initiator : option string;
  item_type : option string;
  fileid_prefix : option string;
  item_source : option string;
  file_source : Z;
  permissions : Z;
  stime : Z;
  token : option string;
  share_name : option string;
  quicklink : bool;
  description : string;
  internal : bool;
  share_with : option string;
  expiration : option Z;            (* DATETIME *)
  orphan : option bool
}.

Definition Table : Type := list Row.

(* coalesce(col, '') *)
Definition coalesce (c : option string) : string :=
  match c with Some s => s | None => "" end.

(* col = ? on a nullable text column *)
Definition col_eq (c : option string) (v : string) : bool :=
  match c with Some s => String.eqb s v | None => false end.

(* (orphan = 0 or orphan IS NULL) *)
Definition orphan_unset (r : Row) : bool :=
  match orphan r with Some true => false | _ => true end.

(* (uid_owner=? or uid_initiator=?), both parameters bound to [uid] *)
Definition owner_or_initiator (uid : string) (r : Row) : bool :=
  col_eq (uid_owner r) uid || col_eq (uid_initiator r) uid.

(* db.QueryRow(...): the first row of the result set, if any *)
Definition QueryRow (where_ : Row -> bool) (db : Table) : option Row :=
  find where_ db.

(* db.Query(...) *)
Definition Query (where_ : Row -> bool) (db : Table) : list Row :=
  filter where_ db.

(* update oc_share set ... where ... *)
Definition ExecUpdate (set_ : Row -> Row) (where_ : Row -> bool) (db : Table) : Table :=
  map (fun r => if where_ r then set_ r else r) db.

(* delete from oc_share where ...: the new table and RowsAffected() *)
Definition ExecDelete (where_ : Row -> bool) (db : Table) : Table * Z :=
  (filter (fun r => negb (where_ r)) db, Z.of_nat (List.length (filter where_ db))).

(** ** Package conversions *)

Module conversions.
Record DBShare : Type := {
  ID : string;
  UIDOwner : string;
  UIDInitiator : string;
  Prefix : string;
  ItemSource : string;
  ItemType : string;
  ShareWith : string;
  Token : string;
  Expiration : option Z;     (* the DATETIME text; '' is [None] *)
  Permissions : Z;
  ShareName : string;
  STime : Z;
  Quicklink : bool;
  Description : string
}.

(** Modelled from the spec: [FormatUserID] and [ExtractUserID] of package
    [conversions] are not among the sources; an identity reference is
    stored in [uid_owner] and [uid_initiator] by its opaque identifier. *)
Definition FormatUserID (u : user.UserId) : string := user.OpaqueId u.
Definition ExtractUserID (s : string) : user.UserId :=
  {| user.Idp := ""; user.OpaqueId := s |}.

(** Modelled from the spec: [ConvertToCS3PublicShare] of package
    [conversions] is not among the sources.  The share carries the row's
    columns; [PasswordProtected] holds iff the password hash is a non-empty
    value; the expiration is an optional instant, absent when the column is
    unset; the creation and modification times are both [stime]. *)
Definition ConvertToCS3PublicShare (s : DBShare) : link.PublicShare :=
  let ts := {| typespb.Seconds := uint64 (STime s); typespb.Nanos := 0 |} in
  {| link.Id := ID s;
     link.Token := Token s;
     link.ResourceId :=
       {| provider.StorageId := Prefix s; provider.OpaqueId := ItemSource s |};
     link.Permissions := Permissions s;
     link.Owner := ExtractUserID (UIDOwner s);
     link.Creator := ExtractUserID (UIDInitiator s);
     link.Ctime := ts;
     link.Mtime := ts;
     link.PasswordProtected := negb (String.eqb (ShareWith s) "");
     link.Expiration :=
       match Expiration s with
       | Some e => Some {| typespb.Seconds := uint64 e; typespb.Nanos := 0 |}
       | None => None
       end;
     link.DisplayName := ShareName s;
     link.Quicklink := Quicklink s;
     link.Description := Description s;
     link.Sig := None |}.
End conversions.

(** ** Collaborators outside the repository's sources *)

Class Externals : Type := {
  (* bcrypt.GenerateFromPassword(password, cost): the bytes and the error *)
  bcrypt_GenerateFromPassword : string -> Z -> string * option error;
  (* bcrypt.CompareHashAndPassword(hashedPassword, password): the error *)
  bcrypt_CompareHashAndPassword : string -> string -> option error;
  (* publicshare.CreateSignature(token, pw, expiration) *)
  CreateSignature : string -> string -> Time -> result string;
  (* the validity window publicshare.AddSignature gives a signature *)
  signatureWindow : Z;
  (* pool.GetGatewayServiceClient: the error, if any *)
  GetGatewayServiceClient : option error;
  (* client.Stat on a resource id: the response, or a transport error *)
  Stat : provider.ResourceId -> result provider.StatResponse
}.

(** ** The manager *)

Definition publicShareType : Z := 3.
Definition projectInstancesPrefix : string := "newproject".
Definition projectSpaceGroupsPrefix : string := "cernbox-project-".
Definition projectSpaceAdminGroupsSuffix : string := "-admins".

Record config : Type := {
  SharePasswordHashCost : Z;
  JanitorRunInterval : Z;
  EnableExpiredSharesCleanup : bool
}.

(* func (c *config) init() *)
Definition config_init (c : config) : config :=
  {| SharePasswordHashCost :=
       if SharePasswordHashCost c =? 0 then 11 else SharePasswordHashCost c;
     JanitorRunInterval :=
       if JanitorRunInterval c =? 0 then 3600 else JanitorRunInterval c;
     EnableExpiredSharesCleanup := EnableExpiredSharesCleanup c |}.

(** Column writers: the row with one column replaced. *)

Definition set_orphan (v : option bool) (r : Row) : Row :=
  {| id := id r; share_type := share_type r; uid_owner := uid_owner r;
     uid_initiator := uid_initiator r; item_type := item_type r;
     fileid_prefix := fileid_prefix r; item_source := item_source r;
     file_source := file_source r; permissions := permissions r;
     stime := stime r; token := token r; share_name := share_name r;
     quicklink := quicklink r; description := description r;
     internal := internal r; share_with := share_with r;
     expiration := expiration r; orphan := v |}.

Definition set_stime (v : Z) (r : Row) : Row :=
  {| id := id r; share_type := share_type r; uid_owner := uid_owner r;
     uid_initiator := uid_initiator r; item_type := item_type r;
     fileid_prefix := fileid_prefix r; item_source := item_source r;
     file_source := file_source r; permissions := permissions r;
     stime := v; token := token r; share_name := share_name r;
     quicklink := quicklink r; description := description r;
     internal := internal r; share_with := share_with r;
     expiration := expiration r; orphan := orphan r |}.

Definition set_share_name (v : option string) (r : Row) : Row :=
  {| id := id r; share_type := share_type r; uid_owner := uid_owner r;
     uid_initiator := uid_initiator r; item_type := item_type r;
     fileid_prefix := fileid_prefix r; item_source := item_source r;
     file_source := file_source r; permissions := permissions r;
     stime := stime r; token := token r; share_name := v;
     quicklink := quicklink r; description := description r;
     internal := internal r; share_with := share_with r;
     expiration := expiration r; orphan := orphan r |}.

Definition set_permissions (v : Z) (r : Row) : Row :=
  {| id := id r; share_type := share_type r; uid_owner := uid_owner r;
     uid_initiator := uid_initiator r; item_type := item_type r;
     fileid_prefix := fileid_prefix r; item_source := item_source r;
     file_source := file_source r; permissions := v;
     stime := stime r; token := token r; share_name := share_name r;
     quicklink := quicklink r; description := description r;
     internal := internal r; share_with := share_with r;
     expiration := expiration r; orphan := orphan r |}.

Definition set_expiration (v : option Z) (r : Row) : Row :=
  {| id := id r; share_type := share_type r; uid_owner := uid_owner r;
     uid_initiator := uid_initiator r; item_type := item_type r;
     fileid_prefix := fileid_prefix r; item_source := item_source r;
     file_source := file_source r; permissions := permissions r;
     stime := stime r; token := token r; share_name := share_name r;
     quicklink := quicklink r; description := description r;
     internal := internal r; share_with := share_with r;
     expiration := v; orphan := orphan r |}.

Definition set_share_with (v : option string) (r : Row) : Row :=
  {| id := id r; share_type := share_type r; uid_owner := uid_owner r;
     uid_initiator := uid_initiator r; item_type := item_type r;
     fileid_prefix := fileid_prefix r; item_source := item_source r;
     file_source := file_source r; permissions := permissions r;
     stime := stime r; token := token r; share_name := share_name r;
     quicklink := quicklink r; description := description r;
     internal := internal r; share_with := v;
     expiration := expiration r; orphan := orphan r |}.

Definition set_description (v : string) (r : Row) : Row :=
  {| id := id r; share_type := share_type r; uid_owner := uid_owner r;
     uid_initiator := uid_initiator r; item_type := item_type r;
     fileid_prefix := fileid_prefix r; item_source := item_source r;
     file_source := file_source r; permissions := permissions r;
     stime := stime r; token := token r; share_name := share_name r;
     quicklink := quicklink r; description := v;
     internal := internal r; share_with := share_with r;
     expiration := expiration r; orphan := orphan r |}.

(** Scanning a row of a result set into a [DBShare]. *)

Definition scan (r : Row) : conversions.DBShare :=
  {| conversions.ID := id r;
     conversions.UIDOwner := coalesce (uid_owner r);
     conversions.UIDInitiator := coalesce (uid_initiator r);
     conversions.Prefix := coalesce (fileid_prefix r);
     conversions.ItemSource := coalesce (item_source r);
     conversions.ItemType := coalesce (item_type r);
     conversions.ShareWith := coalesce (share_with r);
     conversions.Token := coalesce (token r);
     conversions.Expiration := expiration r;
     conversions.Permissions := permissions r;
     conversions.ShareName := coalesce (share_name r);
     conversions.STime := stime r;
     conversions.Quicklink := quicklink r;
     conversions.Description := description r |}.

(* s := conversions.DBShare{Token: token}; the select list has no token *)
Definition scan_keep_token (tkn : string) (r : Row) : conversions.DBShare :=
  let s := scan r in
  {| conversions.ID := conversions.ID s;
     conversions.UIDOwner := conversions.UIDOwner s;
     conversions.UIDInitiator := conversions.UIDInitiator s;
     conversions.Prefix := conversions.Prefix s;
     conversions.ItemSource := conversions.ItemSource s;
     conversions.ItemType := conversions.ItemType s;
     conversions.ShareWith := conversions.ShareWith s;
     conversions.Token := tkn;
     conversions.Expiration := conversions.Expiration s;
     conversions.Permissions := conversions.Permissions s;
     conversions.ShareName := conversions.ShareName s;
     conversions.STime := conversions.STime s;
     conversions.Quicklink := conversions.Quicklink s;
     conversions.Description := conversions.Description s |}.

(* s := conversions.DBShare{ID: id.OpaqueId}; the select list has no id *)
Definition scan_keep_id (i : string) (r : Row) : conversions.DBShare :=
  let s := scan r in
  {| conversions.ID := i;
     conversions.UIDOwner := conversions.UIDOwner s;
     conversions.UIDInitiator := conversions.UIDInitiator s;
     conversions.Prefix := conversions.Prefix s;
     conversions.ItemSource := conversions.ItemSource s;
     conversions.ItemType := conversions.ItemType s;
     conversions.ShareWith := conversions.ShareWith s;
     conversions.Token := conversions.Token s;
     conversions.Expiration := conversions.Expiration s;
     conversions.Permissions := conversions.Permissions s;
     conversions.ShareName := conversions.ShareName s;
     conversions.STime := conversions.STime s;
     conversions.Quicklink := conversions.Quicklink s;
     conversions.Description := conversions.Description s |}.

Definition with_signature (s : link.PublicShare) (sg : option link.ShareSignature)
  : link.PublicShare :=
  {| link.Id := link.Id s; link.Token := link.Token s;
     link.ResourceId := link.ResourceId s; link.Permissions := link.Permissions s;
     link.Owner := link.Owner s; link.Creator := link.Creator s;
     link.Ctime := link.Ctime s; link.Mtime := link.Mtime s;
     link.PasswordProtected := link.PasswordProtected s;
     link.Expiration := link.Expiration s; link.DisplayName := link.DisplayName s;
     link.Quicklink := link.Quicklink s; link.Description := link.Description s;
     link.Sig := sg |}.

(* func expired(s *link.PublicShare) bool *)
Definition expired (now : Time) (s : link.PublicShare) : bool :=
  match link.Expiration s with
  | Some e =>
      Before (time_Unix (int64 (typespb.Seconds e)) (typespb.Nanos e)) now
  | None => false
  end.

(** The WHERE clauses of the manager's statements. *)

Definition getByToken_where (tkn : string) (r : Row) : bool :=
  orphan_unset r && (share_type r =? publicShareType) && col_eq (token r) tkn.

Definition getByID_where (i uid : string) (r : Row) : bool :=
  orphan_unset r && (share_type r =? publicShareType) && String.eqb (id r) i
  && owner_or_initiator uid r.

Definition GetPublicShareByToken_where (tkn : string) (r : Row) : bool :=
  (share_type r =? publicShareType) && col_eq (token r) tkn.

Definition update_id_where (i uid : string) (r : Row) : bool :=
  String.eqb (id r) i && owner_or_initiator uid r.

Definition update_token_where (tkn uid : string) (r : Row) : bool :=
  col_eq (token r) tkn && owner_or_initiator uid r.

(* expiration IS NOT NULL AND expiration < ? *)
Definition cleanup_where (cutoff : Z) (r : Row) : bool :=
  match expiration r with Some e => e <? cutoff | None => false end.

(* func (m *manager) cleanupExpiredShares() error; the error is always nil *)
Definition cleanupExpiredShares (c : config) (now : Time) (db : Table) : Table :=
  if negb (EnableExpiredSharesCleanup c) then db
  else ExecUpdate (set_orphan (Some true))
         (cleanup_where (Format_2006_01_02_03_04_05 now)) db.

(* One tick of startJanitorRun: [_ = m.cleanupExpiredShares()]. *)
Definition janitorTick (c : config) (now : Time) (db : Table) : Table :=
  cleanupExpiredShares c now db.

Section Manager.
Context {E : Externals}.

(* func hashPassword(password string, cost int) (string, error) *)
Definition hashPassword (password : string) (cost : Z) : string * option error :=
  let (bytes, err) := bcrypt_GenerateFromPassword password cost in
  (String.append "1|" bytes, err).

(* func checkPasswordHash(password, hash string) bool *)
Definition checkPasswordHash (password hash : string) : bool :=
  match bcrypt_CompareHashAndPassword (TrimPrefix hash "1|") password with
  | None => true
  | Some _ => false
  end.

(* func authenticate(share, pw, auth) bool *)
Definition authenticate (now : Time) (share : link.PublicShare) (pw : string)
           (auth : link.PublicShareAuthentication) : bool :=
  if negb (String.eqb (link.GetPassword auth) "") then
    checkPasswordHash (link.GetPassword auth) pw
  else
    match link.GetSignature auth with
    | Some sig =>
        let expiration :=
          time_Unix (int64 (typespb.Seconds (link.SignatureExpiration sig)))
                    (typespb.Nanos (link.SignatureExpiration sig)) in
        if After now expiration then false
        else
          match CreateSignature (link.Token share) pw expiration with
          | Error _ => false
          | Ok s => String.eqb (link.Signature sig) s
          end
    | None => false
    end.

(** Modelled from the spec: [AddSignature] of package [publicshare] is not
    among the sources.  It attaches a capability signature computed from
    the share's token and the password hash, valid for a short window from
    now on; a signing failure is returned. *)
Definition AddSignature (now : Time) (share : link.PublicShare) (pw : string)
  : result link.PublicShare :=
  let expiration := now + signatureWindow in
  match CreateSignature (link.Token share) pw expiration with
  | Error e => Error e
  | Ok sg =>
      Ok (with_signature share
            (Some {| link.Signature := sg;
                     link.SignatureExpiration :=
                       {| typespb.Seconds := uint64 (expiration / second);
                          typespb.Nanos := expiration mod second |} |}))
  end.

(* func (m *manager) CreatePublicShare(ctx, u, rInfo, g, description, internal);
   [tkn] is the value of utils.RandString(15) and [lastID] the identifier
   the store assigns to the inserted row.  Columns the statement does not
   name are left unset. *)
Definition CreatePublicShare (c : config) (now : Time) (db : Table)
           (tkn : string) (lastID : Z)
           (u : user.User) (rInfo : provider.ResourceInfo) (g : link.Grant)
           (description_ : string) (internal_ : bool)
  : result link.PublicShare * Table :=
  let quicklink_ :=
    ParseBool (match lookup (provider.Metadata rInfo) "quicklink" with
               | Some v => v | None => "" end) in
  let displayName :=
    match lookup (provider.Metadata rInfo) "name" with
    | Some v => v | None => tkn end in
  let createdAt := {| typespb.Seconds := uint64 (Unix now); typespb.Nanos := 0 |} in
  let creator := conversions.FormatUserID (user.Id u) in
  let owner := conversions.FormatUserID (provider.Owner rInfo) in
  match link.GrantPermissions g with
  | None => (Error Panic, db)
  | Some permissions_ =>
      let prefix := provider.StorageId (provider.Id rInfo) in
      let itemSource := provider.OpaqueId (provider.Id rInfo) in
      let fileSource :=
        match ParseUint itemSource with Some v => v | None => 0 end in
      let hashed :=
        if negb (String.eqb (link.Password g) "")
        then
          match hashPassword (link.Password g) (SharePasswordHashCost c) with
          | (h, None) => Ok (Some h)
          | (_, Some _) => Error (Err "could not hash share password")
          end
        else Ok None in
      match hashed with
      | Error e => (Error e, db)
      | Ok password =>
          let expiration_ :=
            match link.GrantExpiration g with
            | Some e =>
                if negb (typespb.Seconds e =? 0)
                then Some (int64 (typespb.Seconds e)) else None
            | None => None
            end in
          let row :=
            {| id := FormatInt lastID; share_type := publicShareType;
               uid_owner := Some owner; uid_initiator := Some creator;
               item_type := Some (provider.ItemType rInfo);
               fileid_prefix := Some prefix; item_source := Some itemSource;
               file_source := fileSource; permissions := permissions_;
               stime := Unix now; token := Some tkn;
               share_name := Some displayName; quicklink := quicklink_;
               description := description_; internal := internal_;
               share_with := password; expiration := expiration_;
               orphan := None |} in
          (Ok {| link.Id := FormatInt lastID;
                 link.Token := tkn;
                 link.ResourceId := provider.Id rInfo;
                 link.Permissions := permissions_;
                 link.Owner := provider.Owner rInfo;
                 link.Creator := user.Id u;
                 link.Ctime := createdAt;
                 link.Mtime := createdAt;
                 link.PasswordProtected :=
                   match password with Some _ => true | None => false end;
                 link.Expiration := link.GrantExpiration g;
                 link.DisplayName := displayName;
                 link.Quicklink := quicklink_;
                 link.Description := description_;
                 link.Sig := None |},
           db ++ [row])
      end
  end.

(* func (m *manager) getByToken(ctx, token, u) *)
Definition getByToken (db : Table) (tkn : string)
  : result (link.PublicShare * string) :=
  match QueryRow (getByToken_where tkn) db with
  | None => Error NotFound
  | Some r =>
      let s := scan_keep_token tkn r in
      Ok (conversions.ConvertToCS3PublicShare s, conversions.ShareWith s)
  end.

(* func (m *manager) getByID(ctx, id, u) *)
Definition getByID (db : Table) (i : string) (u : user.User)
  : result (link.PublicShare * string) :=
  let uid := conversions.FormatUserID (user.Id u) in
  match QueryRow (getByID_where i uid) db with
  | None => Error NotFound
  | Some r =>
      let s := scan_keep_id i r in
      Ok (conversions.ConvertToCS3PublicShare s, conversions.ShareWith s)
  end.

(* func (m *manager) GetPublicShare(ctx, u, ref, sign) *)
Definition GetPublicShare (c : config) (now : Time) (db : Table)
           (u : user.User) (ref : link.PublicShareReference) (sign : bool)
  : result link.PublicShare * Table :=
  let lookup :=
    match ref with
    | link.RefId i => getByID db i u
    | link.RefToken tkn =>
        if negb (String.eqb tkn "") then getByToken db tkn else Error NotFound
    | link.RefNone => Error NotFound
    end in
  match lookup with
  | Error e => (Error e, db)
  | Ok (s, pw) =>
      if expired now s then (Error NotFound, cleanupExpiredShares c now db)
      else if link.PasswordProtected s && sign then
        match AddSignature now s pw with
        | Error e => (Error e, db)
        | Ok s' => (Ok s', db)
        end
      else (Ok s, db)
  end.

(** *** ListPublicShares *)

Definition resourceParams (filters : list link.Filter) : list provider.ResourceId :=
  flat_map (fun f => match f with link.TYPE_RESOURCE_ID r => [r] | _ => [] end)
           filters.

Definition ownerParams (filters : list link.Filter) : list string :=
  flat_map (fun f => match f with
                     | link.TYPE_OWNER o => [conversions.FormatUserID o]
                     | _ => []
                     end) filters.

Definition creatorParams (filters : list link.Filter) : list string :=
  flat_map (fun f => match f with
                     | link.TYPE_CREATOR o => [conversions.FormatUserID o]
                     | _ => []
                     end) filters.

(* "(fileid_prefix=? AND item_source=?)" joined by " OR "; no clause at all
   when there is no filter of the kind *)
Definition resource_clause (ps : list provider.ResourceId) (r : Row) : bool :=
  match ps with
  | [] => true
  | _ => existsb (fun p => col_eq (fileid_prefix r) (provider.StorageId p)
                           && col_eq (item_source r) (provider.OpaqueId p)) ps
  end.

Definition owner_clause (ps : list string) (r : Row) : bool :=
  match ps with
  | [] => true
  | _ => existsb (fun p => col_eq (uid_owner r) p) ps
  end.

Definition creator_clause (ps : list string) (r : Row) : bool :=
  match ps with
  | [] => true
  | _ => existsb (fun p => col_eq (uid_initiator r) p) ps
  end.

(* What uidOwnerFilters returns besides the error: the text
   "uid_owner=? or uid_initiator=?" with both parameters, or the empty
   text with no parameter. *)
Inductive OwnerQuery : Type :=
| OwnerOrInitiator (uid : string)
| Unrestricted.

(* The group named by the path of a project resource, if the path has
   enough components. *)
Definition adminGroup (path : string) : option string :=
  let parts := SplitN path "/"%char 6 in
  if (Z.of_nat (List.length parts) <? 5) then None
  else Some (String.append projectSpaceGroupsPrefix
               (String.append (nth 4 parts "") projectSpaceAdminGroupsSuffix)).

(* One round of the loop over the filters: does it return early? *)
Definition isProjectAdmin (u : user.User) (f : link.Filter) : bool :=
  match f with
  | link.TYPE_RESOURCE_ID rid =>
      if HasPrefix (provider.StorageId rid) projectInstancesPrefix then
        match Stat rid with
        | Error _ => false
        | Ok res =>
            if negb (provider.StatusOK res) then false
            else
              match adminGroup (provider.Path res) with
              | None => false
              | Some g => existsb (fun g' => String.eqb g' g) (user.Groups u)
              end
        end
      else false
  | _ => false
  end.

(* func (m *manager) uidOwnerFilters(ctx, u, filters) *)
Definition uidOwnerFilters (u : user.User) (filters : list link.Filter)
  : result OwnerQuery :=
  let uid := conversions.FormatUserID (user.Id u) in
  match GetGatewayServiceClient with
  | Some e => Error e
  | None =>
      if existsb (isProjectAdmin u) filters then Ok Unrestricted
      else Ok (OwnerOrInitiator uid)
  end.

Definition uid_clause (q : OwnerQuery) (r : Row) : bool :=
  match q with
  | OwnerOrInitiator uid => owner_or_initiator uid r
  | Unrestricted => true
  end.

Definition ListPublicShares_where (filters : list link.Filter) (q : OwnerQuery)
           (r : Row) : bool :=
  orphan_unset r && (share_type r =? publicShareType) && negb (internal r)
  && resource_clause (resourceParams filters) r
  && owner_clause (ownerParams filters) r
  && creator_clause (creatorParams filters) r
  && uid_clause q r.

(* for rows.Next() { ... } *)
Fixpoint ListPublicShares_loop (c : config) (now : Time) (sign : bool)
         (rows : list Row) (shares : list link.PublicShare) (db : Table)
  : result (list link.PublicShare) * Table :=
  match rows with
  | [] => (Ok shares, db)
  | r :: rows' =>
      let s := scan r in
      let cs3Share := conversions.ConvertToCS3PublicShare s in
      if expired now cs3Share then
        ListPublicShares_loop c now sign rows' shares (cleanupExpiredShares c now db)
      else if link.PasswordProtected cs3Share && sign then
        match AddSignature now cs3Share (conversions.ShareWith s) with
        | Error e => (Error e, db)
        | Ok cs3Share' =>
            ListPublicShares_loop c now sign rows' (shares ++ [cs3Share']) db
        end
      else ListPublicShares_loop c now sign rows' (shares ++ [cs3Share]) db
  end.

(* func (m *manager) ListPublicShares(ctx, u, filters, md, sign) *)
Definition ListPublicShares (c : config) (now : Time) (db : Table)
           (u : user.User) (filters : list link.Filter) (sign : bool)
  : result (list link.PublicShare) * Table :=
  match uidOwnerFilters u filters with
  | Error e => (Error e, db)
  | Ok q =>
      ListPublicShares_loop c now sign
        (Query (ListPublicShares_where filters q) db) [] db
  end.

(** *** UpdatePublicShare *)

(* The single entry of paramsMap: the column written and its value. *)
Inductive Assignment : Type :=
| share_name_is (v : string)
| permissions_is (v : Z)
| expiration_is (v : Z)
| share_with_is (v : string)
| description_is (v : string).

Definition assign (a : Assignment) (r : Row) : Row :=
  match a with
  | share_name_is v => set_share_name (Some v) r
  | permissions_is v => set_permissions v r
  | expiration_is v => set_expiration (Some v) r
  | share_with_is v => set_share_with (Some v) r
  | description_is v => set_description v r
  end.

(* switch req.GetUpdate().GetType() { ... } *)
Definition paramsMap (c : config) (upd : option link.Update) : result Assignment :=
  match upd with
  | None => Error (Err "invalid update type")
  | Some up =>
      match link.Type_ up with
      | link.TYPE_DISPLAYNAME => Ok (share_name_is (link.GetDisplayName up))
      | link.TYPE_PERMISSIONS =>
          match link.GetGrant up with
          | Some g =>
              match link.GrantPermissions g with
              | Some p => Ok (permissions_is p)
              | None => Error Panic
              end
          | None => Error Panic
          end
      | link.TYPE_EXPIRATION =>
          match link.GetGrant up with
          | Some g =>
              match link.GrantExpiration g with
              | Some e => Ok (expiration_is (int64 (typespb.Seconds e)))
              | None => Error Panic
              end
          | None => Error Panic
          end
      | link.TYPE_PASSWORD =>
          match link.GetGrant up with
          | Some g =>
              if String.eqb (link.Password g) "" then Ok (share_with_is "")
              else
                match hashPassword (link.Password g) (SharePasswordHashCost c) with
                | (h, None) => Ok (share_with_is h)
                | (_, Some _) => Error (Err "could not hash share password")
                end
          | None => Error Panic
          end
      | link.TYPE_DESCRIPTION => Ok (description_is (link.GetDescription up))
      | link.TYPE_INVALID => Error (Err "invalid update type")
      end
  end.

(* func (m *manager) UpdatePublicShare(ctx, u, req, g) *)
Definition UpdatePublicShare (c : config) (now : Time) (db : Table)
           (u : user.User) (req : link.UpdatePublicShareRequest)
  : result link.PublicShare * Table :=
  let uid := conversions.FormatUserID (user.Id u) in
  match paramsMap c (link.GetUpdate req) with
  | Error e => (Error e, db)
  | Ok a =>
      let set_ := fun r => set_stime (Unix now) (assign a r) in
      match link.Ref req with
      | link.RefId i =>
          GetPublicShare c now (ExecUpdate set_ (update_id_where i uid) db)
                         u (link.Ref req) false
      | link.RefToken tkn =>
          if negb (String.eqb tkn "") then
            GetPublicShare c now (ExecUpdate set_ (update_token_where tkn uid) db)
                           u (link.Ref req) false
          else (Error NotFound, db)
      | link.RefNone => (Error NotFound, db)
      end
  end.

(* func (m *manager) RevokePublicShare(ctx, u, ref) error *)
Definition RevokePublicShare (db : Table) (u : user.User)
           (ref : link.PublicShareReference) : option error * Table :=
  let uid := conversions.FormatUserID (user.Id u) in
  let exec := fun where_ =>
    let (db', rowCnt) := ExecDelete where_ db in
    if rowCnt =? 0 then (Some NotFound, db') else (None, db') in
  match ref with
  | link.RefId i =>
      if negb (String.eqb i "") then exec (update_id_where i uid)
      else (Some NotFound, db)
  | link.RefToken tkn =>
      if negb (String.eqb tkn "") then exec (update_token_where tkn uid)
      else (Some NotFound, db)
  | link.RefNone => (Some NotFound, db)
  end.

(* func (m *manager) GetPublicShareByToken(ctx, token, auth, sign) *)
Definition GetPublicShareByToken (c : config) (now : Time) (db : Table)
           (tkn : string) (auth : link.PublicShareAuthentication) (sign : bool)
  : result link.PublicShare * Table :=
  match QueryRow (GetPublicShareByToken_where tkn) db with
  | None => (Error NotFound, db)
  | Some r =>
      let s := scan_keep_token tkn r in
      let cs3Share := conversions.ConvertToCS3PublicShare s in
      if expired now cs3Share then
        (Error NotFound, cleanupExpiredShares c now db)
      else if negb (String.eqb (conversions.ShareWith s) "") then
        if negb (authenticate now cs3Share (conversions.ShareWith s) auth) then
          (Error InvalidCredentials, db)
        else if sign then
          match AddSignature now cs3Share (conversions.ShareWith s) with
          | Error e => (Error e, db)
          | Ok cs3Share' => (Ok cs3Share', db)
          end
        else (Ok cs3Share, db)
      else (Ok cs3Share, db)
  end.

End Manager.

(** ** Notions used in the statements *)

(* A DATETIME value fits the int64 that time.Unix takes. *)
Definition wf_row (r : Row) : Prop :=
  match expiration r with Some e => in_int64 e | None => True end.

(* The expiration instant of the row is in the past at [now]. *)
Definition row_expired (now : Time) (r : Row) : bool :=
  match expiration r with
  | Some e => time_Unix e 0 <? now
  | None => false
  end.

(* The row a reference designates for a caller: what the lookup of
   GetPublicShare selects. *)
Definition designated (db : Table) (u : user.User) (ref : link.PublicShareReference)
  : option Row :=
  match ref with
  | link.RefId i =>
      QueryRow (getByID_where i (conversions.FormatUserID (user.Id u))) db
  | link.RefToken tkn =>
      if String.eqb tkn "" then None else QueryRow (getByToken_where tkn) db
  | link.RefNone => None
  end.

(* A share without its attached signature. *)
Definition unsigned (s : link.PublicShare) : link.PublicShare := with_signature s None.

(** ** Sample data

    A small instance of the collaborators and a few rows, used to run the
    operations on concrete inputs. *)

Definition ex_externals : Externals :=
  {| bcrypt_GenerateFromPassword := fun p cost =>
       if 31 <? cost then ("", Some (Err "cost out of range"))
       else (String.append "$2a$" p, None);
     bcrypt_CompareHashAndPassword := fun h p =>
       if String.eqb h (String.append "$2a$" p) then None
       else Some (Err "mismatch");
     CreateSignature := fun tkn pw _ => Ok (String.append tkn (String.append "|" pw));
     signatureWindow := 3600 * second;
     GetGatewayServiceClient := None;
     Stat := fun rid =>
       if String.eqb (provider.OpaqueId rid) "1"
       then Ok {| provider.StatusOK := true; provider.Path := "/eos/project/a/alpha" |}
       else if String.eqb (provider.OpaqueId rid) "2"
       then Ok {| provider.StatusOK := true; provider.Path := "/eos/project/b/beta" |}
       else Error (Err "no such resource") |}.

Definition ex_user (name : string) (groups : list string) : user.User :=
  {| user.Id := {| user.Idp := "idp"; user.OpaqueId := name |};
     user.Groups := groups |}.

Definition ex_alice : user.User := ex_user "alice" [].
Definition ex_bob : user.User := ex_user "bob" ["cernbox-project-alpha-admins"].
Definition ex_carol : user.User := ex_user "carol" [].

(* Cleanup of expired shares is off unless the configuration enables it. *)
Definition ex_config : config :=
  {| SharePasswordHashCost := 4; JanitorRunInterval := 3600;
     EnableExpiredSharesCleanup := false |}.
Definition ex_config_cleanup : config :=
  {| SharePasswordHashCost := 4; JanitorRunInterval := 3600;
     EnableExpiredSharesCleanup := true |}.

(* 2023-11-14 10:00:00 and 22:13:20 UTC *)
Definition ex_morning : Time := 1699956000 * second.
Definition ex_evening : Time := 1700000000 * second.

(* A public link on a file of [owner], created by [owner], with no
   password, no expiration and the orphan column unset. *)
Definition ex_row_of (ty : Z) (prefix source i tkn owner : string) : Row :=
  {| id := i; share_type := ty; uid_owner := Some owner;
     uid_initiator := Some owner; item_type := Some "file";
     fileid_prefix := Some prefix; item_source := Some source;
     file_source := 42; permissions := 1; stime := 100; token := Some tkn;
     share_name := Some tkn; quicklink := false; description := "";
     internal := false; share_with := None; expiration := None;
     orphan := None |}.

Definition ex_row (i tkn owner : string) : Row :=
  ex_row_of publicShareType "home" "42" i tkn owner.

Definition ex_password (name : string) : link.PublicShareAuthentication :=
  {| link.GetPassword := name; link.GetSignature := None |}.
Definition ex_no_auth : link.PublicShareAuthentication := ex_password "".

(* A share of alice that expired one second before [ex_evening], its
   orphan column unset, next to a live one. *)
Definition ex_old_row : Row :=
  set_expiration (Some 1699999999) (ex_row "1" "tok-old" "alice").
Definition ex_live_row : Row := ex_row "2" "tok-live" "alice".
Definition ex_expiry_db : Table := [ex_old_row; ex_live_row].

(* A share of alice whose orphan column is set. *)
Definition ex_orphan_db : Table := [set_orphan (Some true) (ex_row "1" "tok" "alice")].

(* The instant a Timestamp message denotes for the manager. *)
Definition instant (ts : typespb.Timestamp) : Time :=
  time_Unix (int64 (typespb.Seconds ts)) (typespb.Nanos ts).

Definition signature_attempt (sg : link.ShareSignature) : link.PublicShareAuthentication :=
  {| link.GetPassword := ""; link.GetSignature := Some sg |}.

(* The rows the selector of UpdatePublicShare and RevokePublicShare names:
   (id or token) AND (owner or creator = caller). *)
Definition selected (uid : string) (ref : link.PublicShareReference) (r : Row) : bool :=
  match ref with
  | link.RefId i => update_id_where i uid r
  | link.RefToken tkn => update_token_where tkn uid r
  | link.RefNone => false
  end.

Definition ex_rename (ref : link.PublicShareReference) (name : string)
  : link.UpdatePublicShareRequest :=
  {| link.Ref := ref;
     link.GetUpdate :=
       Some {| link.Type_ := link.TYPE_DISPLAYNAME; link.GetGrant := None;
               link.GetDisplayName := name; link.GetDescription := "" |} |}.

(* Two project spaces; bob administers alpha only, carol holds a link on a
   resource of beta. *)
Definition ex_alpha : provider.ResourceId :=
  {| provider.StorageId := "newproject-a"; provider.OpaqueId := "1" |}.
Definition ex_beta : provider.ResourceId :=
  {| provider.StorageId := "newproject-b"; provider.OpaqueId := "2" |}.
Definition ex_carol_on_beta : Row :=
  ex_row_of publicShareType "newproject-b" "2" "7" "tok-carol" "carol".

(* A row of another sharing mechanism in the same table: a user share
   (share_type 0) of alice that expired on 2023-11-14 at 09:00:00 UTC. *)
Definition ex_user_share : Row :=
  set_expiration (Some 1699952400) (ex_row_of 0 "home" "42" "9" "" "alice").

(* Every stored column of [r'] other than the one of the update kind [k]
   and [stime] is as in [r]. *)
Definition unchanged_outside (k : link.UpdateType) (r r' : Row) : Prop :=
  id r' = id r /\ share_type r' = share_type r /\ uid_owner r' = uid_owner r
  /\ uid_initiator r' = uid_initiator r /\ item_type r' = item_type r
  /\ fileid_prefix r' = fileid_prefix r /\ item_source r' = item_source r
  /\ file_source r' = file_source r /\ token r' = token r
  /\ quicklink r' = quicklink r /\ internal r' = internal r
  /\ orphan r' = orphan r
  /\ (k <> link.TYPE_DISPLAYNAME -> share_name r' = share_name r)
  /\ (k <> link.TYPE_PERMISSIONS -> permissions r' = permissions r)
  /\ (k <> link.TYPE_EXPIRATION -> expiration r' = expiration r)
  /\ (k <> link.TYPE_PASSWORD -> share_with r' = share_with r)
  /\ (k <> link.TYPE_DESCRIPTION -> description r' = description r).

(* The sweep the specification describes: orphan = 1 on the rows whose expiration
   is set and earlier than [t], nothing else touched. *)
Definition mark_expired_before (t : Z) (db : Table) : Table :=
  map (fun r => match expiration r with
                | Some e => if e <? t then set_orphan (Some true) r else r
                | None => r
                end) db.


(* The update kind that writes the column of an assignment. *)
Definition kind (a : Assignment) : link.UpdateType :=
  match a with
  | share_name_is _ => link.TYPE_DISPLAYNAME
  | permissions_is _ => link.TYPE_PERMISSIONS
  | expiration_is _ => link.TYPE_EXPIRATION
  | share_with_is _ => link.TYPE_PASSWORD
  | description_is _ => link.TYPE_DESCRIPTION
  end.

(* What the manager relies on from bcrypt: a hash it generated matches the
   password it was generated from, and no other password. *)
Record bcrypt_contract (E : Externals) : Prop := {
  bcrypt_accepts : forall password cost h,
    bcrypt_GenerateFromPassword password cost = (h, None) ->
    bcrypt_CompareHashAndPassword h password = None;
  bcrypt_rejects : forall password cost h other,
    bcrypt_GenerateFromPassword password cost = (h, None) ->
    other <> password ->
    bcrypt_CompareHashAndPassword h other <> None
}.

(* Creating, at [ex_morning], a link of alice that expired a second
   earlier: the grant, the resource and the table the creation leaves. *)
Definition ex_rinfo : provider.ResourceInfo :=
  {| provider.Id := {| provider.StorageId := "home"; provider.OpaqueId := "42" |};
     provider.Owner := user.Id ex_alice;
     provider.ItemType := "file";
     provider.Metadata := [] |}.

Definition ex_grant_expiring (seconds : Z) : link.Grant :=
  {| link.GrantPermissions := Some 1; link.Password := "";
     link.GrantExpiration :=
       Some {| typespb.Seconds := seconds; typespb.Nanos := 0 |} |}.

Definition ex_just_expired_row : Row :=
  set_stime 1699956000 (set_expiration (Some 1699955999) (ex_row "1" "tok" "alice")).

(* The DATETIME CreatePublicShare stores for a grant: none when the grant
   has no expiration or one of zero seconds. *)
Definition grant_expiration (g : link.Grant) : option Z :=
  match link.GrantExpiration g with
  | Some e => if typespb.Seconds e =? 0 then None else Some (int64 (typespb.Seconds e))
  | None => None
  end.

(* A stored expiration is not in the past at [now]. *)
Definition live_at (now : Time) (e : option Z) : Prop :=
  match e with Some s => now <= time_Unix s 0 | None => True end.

(* Two shares agree on what both creation and lookup report. *)
Definition same_share (s s' : link.PublicShare) : Prop :=
  link.Id s' = link.Id s /\ link.Token s' = link.Token s
  /\ link.ResourceId s' = link.ResourceId s
  /\ link.Permissions s' = link.Permissions s
  /\ link.Ctime s' = link.Ctime s /\ link.Mtime s' = link.Mtime s
  /\ link.PasswordProtected s' = link.PasswordProtected s
  /\ link.DisplayName s' = link.DisplayName s
  /\ link.Quicklink s' = link.Quicklink s
  /\ link.Description s' = link.Description s.

Definition ex_grant_password (pw : string) : link.Grant :=
  {| link.GrantPermissions := Some 1; link.Password := pw;
     link.GrantExpiration := None |}.

(* The string has no "/"; the number of "/" in it. *)
Fixpoint slash_free (s : string) : bool :=
  match s with
  | EmptyString => true
  | String ch rest => negb (Ascii.eqb ch "/"%char) && slash_free rest
  end.

Fixpoint count_slash (s : string) : nat :=
  match s with
  | EmptyString => O
  | String ch rest =>
      if Ascii.eqb ch "/"%char then S (count_slash rest) else count_slash rest
  end.

(* "/" followed by the components joined by "/" *)
Definition abs_path (components : list string) : string :=
  fold_right (fun comp acc => String.append "/" (String.append comp acc)) ""
             components.

(** ** Package utils (pkg/rhttp/utils) and the tracing middleware *)

(* strings.TrimRight(s, "/"): [s] without its trailing slashes *)
Fixpoint TrimRight_slash (s : string) : string :=
  match s with
  | EmptyString => EmptyString
  | String ch rest =>
      match TrimRight_slash rest with
      | EmptyString =>
          if Ascii.eqb ch "/"%char then EmptyString else String ch EmptyString
      | String ch' rest' => String ch (String ch' rest')
      end
  end.

(* strings.Split(s, "/"): the pieces between the slashes; one empty piece
   for the empty string *)
Fixpoint Split (s : string) : list string :=
  match s with
  | EmptyString => [EmptyString]
  | String ch rest =>
      if Ascii.eqb ch "/"%char then EmptyString :: Split rest
      else
        match Split rest with
        | piece :: pieces => String ch piece :: pieces
        | [] => [String ch EmptyString]
        end
  end.

(* strings.Join(pieces, "/") *)
Fixpoint Join (pieces : list string) : string :=
  match pieces with
  | [] => EmptyString
  | [piece] => piece
  | piece :: rest => String.append piece (String "/"%char (Join rest))
  end.

(* func cleanURL(url string) string *)
Definition cleanURL (url : string) : string :=
  match url with
  | EmptyString => url
  | String ch _ =>
      TrimRight_slash (if Ascii.eqb ch "/"%char then url else String "/"%char url)
  end.

(* for i, p := range partsPrefix { u := partsURL[i]; if p != u { return false } } *)
Fixpoint parts_match (partsPrefix partsURL : list string) : bool :=
  match partsPrefix, partsURL with
  | [], _ => true
  | p :: ps, u :: us => if String.eqb p u then parts_match ps us else false
  | _ :: _, [] => false
  end.

(* func UrlHasPrefix(url, prefix string) bool *)
Definition UrlHasPrefix (url prefix : string) : bool :=
  let partsURL := Split (cleanURL url) in
  let partsPrefix := Split (cleanURL prefix) in
  if (List.length partsURL <? List.length partsPrefix)%nat then false
  else parts_match partsPrefix partsURL.

(* func GetSubURL(url, prefix string) string; [None] is the run-time panic
   of the slice expression url[len(prefix):] when the prefix is the longer *)
Definition GetSubURL (url prefix : string) : option string :=
  let url' := cleanURL url in
  let prefix' := cleanURL prefix in
  if (String.length url' <? String.length prefix')%nat then None
  else Some (String.substring (String.length prefix')
               (String.length url' - String.length prefix') url').

(* The loop of tracing.Middleware over the keys of the handler map, in the
   order the range statement visits them. *)
Fixpoint longest_match (path : string) (prefixes : list string) (match_ : string)
  : string :=
  match prefixes with
  | [] => match_
  | prefix :: rest =>
      if UrlHasPrefix path prefix
         && (String.length match_ <? String.length prefix)%nat
      then longest_match path rest prefix
      else longest_match path rest match_
  end.

(* The handler tracing.Middleware serves a request path with: the key of
   the handler map whose handler is called, or [None] for the no-op
   handler.  [prefixes] are the keys of the map. *)
Definition Middleware (prefixes : list string) (path : string) : option string :=
  if existsb (String.eqb path) prefixes then Some path
  else
    let match_ := longest_match path prefixes "" in
    if existsb (String.eqb match_) prefixes then Some match_ else None.

(** ** The static auth registry (pkg/auth/registry/static) *)

Module static.
Record ProviderInfo : Type := { ProviderType : string; Address : string }.

(* rules map[string]string: its entries in the order a range statement
   visits them; the keys of a map are pairwise distinct. *)
Definition Rules : Type := list (string * string).

(* func (c *config) init(); [gatewaysvc] is sharedconf.GetGatewaySVC("") *)
Definition config_init (gatewaysvc : string) (rules : Rules) : Rules :=
  match rules with
  | [] => [("basic", gatewaysvc)]
  | _ => rules
  end.

(* func (r *reg) ListProviders(ctx); a nil pointer is [None] and the error
   is always nil *)
Definition ListProviders (rules : Rules) : list (option ProviderInfo) :=
  fold_left
    (fun providers kv =>
       providers ++ [Some {| ProviderType := fst kv; Address := snd kv |}])
    rules (repeat None (List.length rules)).

(* func (r *reg) GetProvider(ctx, authType) *)
Definition GetProvider (rules : Rules) (authType : string) : result ProviderInfo :=
  match lookup rules authType with
  | Some address => Ok {| ProviderType := authType; Address := address |}
  | None => Error NotFound
  end.
End static.

(** ** The credential strategy of public shares
       (internal/http/interceptors/auth/credential/strategy/publicshares) *)

Module publicshares.

(* What GetCredentials reads of the request: r.Header.Get,
   r.URL.Query().Get and r.BasicAuth(). *)
Record Request : Type := {
  HeaderGet : string -> string;
  QueryGet : string -> string;
  BasicAuth : option (string * string)
}.


End publicshares.

(** ** The auth provider service (internal/grpc/services/authprovider) *)

Module authprovider.
(* The status codes the service answers with. *)
Inductive Code : Type :=
| CODE_OK | CODE_PERMISSION_DENIED | CODE_NOT_FOUND | CODE_UNAUTHENTICATED.

Record AuthenticateResponse (U S : Type) : Type := {
  Status : Code;
  User : option U;
  TokenScope : option S
}.
Arguments Status {U S} _.
Arguments User {U S} _.
Arguments TokenScope {U S} _.

(* func (s *service) Authenticate(ctx, req): the response, returned with a
   nil error on every path.  [IsBlocked] is s.blockedUsers.IsBlocked and
   [authmgr] is s.authmgr.Authenticate; a panic of the manager is not
   recovered here. *)
Definition Authenticate {U S : Type} (IsBlocked : string -> bool)
           (authmgr : string -> string -> result (U * S))
           (ClientId ClientSecret : string)
  : result (AuthenticateResponse U S) :=
  let username := ClientId in
  let password := ClientSecret in
  if IsBlocked username then
    Ok {| Status := CODE_PERMISSION_DENIED; User := None; TokenScope := None |}
  else
    match authmgr username password with
    | Ok (u, scope) =>
        Ok {| Status := CODE_OK; User := Some u; TokenScope := Some scope |}
    | Error InvalidCredentials =>
        Ok {| Status := CODE_PERMISSION_DENIED; User := None; TokenScope := None |}
    | Error NotFound =>
        Ok {| Status := CODE_NOT_FOUND; User := None; TokenScope := None |}
    | Error (Err _) =>
        Ok {| Status := CODE_UNAUTHENTICATED; User := None; TokenScope := None |}
    | Error Panic => Error Panic
    end.
End authprovider.

(** ** The registry of tracer providers (package tracing) *)

Module tracing.
Section TracerProvider.
Variable TP : Type.

(* t.reg, a sync.Map from service names to providers *)
Definition Registry : Type := list (string * TP).

Fixpoint Load (reg : Registry) (name : string) : option TP :=
  match reg with
  | [] => None
  | (k, v) :: reg' => if String.eqb k name then Some v else Load reg' name
  end.

Fixpoint Store (reg : Registry) (name : string) (tp : TP) : Registry :=
  match reg with
  | [] => [(name, tp)]
  | (k, v) :: reg' =>
      if String.eqb k name then (k, tp) :: reg' else (k, v) :: Store reg' name tp
  end.

(* func (t *tracing) tracerProvider(name): the provider and the registry
   afterwards.  [noop] is t.noop, [hostname] the result of os.Hostname()
   and [newProvider name hostname] the provider built from the merged
   resource, or [None] when resource.Merge fails. *)
Definition tracerProvider (noop : TP) (hostname : option string)
           (newProvider : string -> string -> option TP)
           (reg : Registry) (name : string) : TP * Registry :=
  match Load reg name with
  | Some tp => (tp, reg)
  | None =>
      match hostname with
      | None => (noop, Store reg name noop)
      | Some h =>
          match newProvider name h with
          | None => (noop, Store reg name noop)
          | Some tp => (tp, Store reg name tp)
          end
      end
  end.
End TracerProvider.
End tracing.

Definition ex_request (header query : string) (basic : option (string * string))
  : publicshares.Request :=
  {| publicshares.HeaderGet := fun key =>
       if String.eqb key "public-token" then header else "";
     publicshares.QueryGet := fun key =>
       if String.eqb key "public-token" then query else "";
     publicshares.BasicAuth := basic |}.

(* The share shows the value an assignment wrote. *)
Definition reflects (a : Assignment) (s : link.PublicShare) : Prop :=
  match a with
  | share_name_is v => link.DisplayName s = v
  | permissions_is v => link.Permissions s = v
  | expiration_is v =>
      link.Expiration s
      = Some {| typespb.Seconds := uint64 v; typespb.Nanos := 0 |}
  | share_with_is v => link.PasswordProtected s = negb (String.eqb v "")
  | description_is v => link.Description s = v
  end.

(** ** Basic facts *)

Lemma int64_uint64 (z : Z) : in_int64 z -> int64 (uint64 z) = z.
Proof.
  unfold in_int64, int64, uint64; intros Hz.
  rewrite Zplus_mod_idemp_l.
  rewrite Z.mod_small; lia.
Qed.

Lemma int64_le (z : Z) : - 2 ^ 63 <= z -> int64 z <= z.
Proof.
  intros Hz. unfold int64.
  pose proof (Z.mod_le (z + 2 ^ 63) (2 ^ 64) ltac:(lia) ltac:(lia)). lia.
Qed.

Lemma int64_id (z : Z) : in_int64 z -> int64 z = z.
Proof. unfold in_int64, int64. intros Hz. rewrite Z.mod_small; lia. Qed.

Lemma expired_scan (now : Time) (r : Row) :
  wf_row r -> expired now (conversions.ConvertToCS3PublicShare (scan r)) = row_expired now r.
Proof.
  unfold wf_row, expired, row_expired; cbn.
  destruct (expiration r) as [e|]; [|reflexivity].
  intros He; cbn. now rewrite int64_uint64.
Qed.

Lemma expired_scan_keep_token (now : Time) (tkn : string) (r : Row) :
  wf_row r ->
  expired now (conversions.ConvertToCS3PublicShare (scan_keep_token tkn r))
  = row_expired now r.
Proof.
  unfold wf_row, expired, row_expired; cbn.
  destruct (expiration r) as [e|]; [|reflexivity].
  intros He; cbn. now rewrite int64_uint64.
Qed.

Lemma expired_scan_keep_id (now : Time) (i : string) (r : Row) :
  wf_row r ->
  expired now (conversions.ConvertToCS3PublicShare (scan_keep_id i r))
  = row_expired now r.
Proof.
  unfold wf_row, expired, row_expired; cbn.
  destruct (expiration r) as [e|]; [|reflexivity].
  intros He; cbn. now rewrite int64_uint64.
Qed.

Lemma QueryRow_In (p : Row -> bool) (db : Table) (r : Row) :
  QueryRow p db = Some r -> In r db /\ p r = true.
Proof. unfold QueryRow; apply find_some. Qed.

Lemma Forall_wf_In (db : Table) (r : Row) : Forall wf_row db -> In r db -> wf_row r.
Proof. intros H; now apply Forall_forall. Qed.

Lemma Forall_wf_Query (p : Row -> bool) (db : Table) :
  Forall wf_row db -> Forall wf_row (Query p db).
Proof.
  unfold Query; rewrite !Forall_forall; intros H r Hr.
  apply filter_In in Hr; now apply H.
Qed.

Section Facts.
Context {E : Externals}.

Lemma AddSignature_unsigned (now : Time) (s s' : link.PublicShare) (pw : string) :
  AddSignature now s pw = Ok s' -> unsigned s' = unsigned s.
Proof.
  unfold AddSignature.
  destruct (CreateSignature _ _ _); intros H; inversion H; reflexivity.
Qed.

Lemma ListPublicShares_loop_shares (c : config) (now : Time) (sign : bool) :
  forall rows acc db shares db',
    Forall wf_row rows ->
    ListPublicShares_loop c now sign rows acc db = (Ok shares, db') ->
    map unsigned shares =
    map unsigned acc
    ++ map (fun r => conversions.ConvertToCS3PublicShare (scan r))
           (filter (fun r => negb (row_expired now r)) rows).
Proof.
  induction rows as [|r rows IH]; intros acc db shares db' Hwf H.
  - cbn in H. inversion H; subst. cbn. now rewrite app_nil_r.
  - inversion Hwf as [|? ? Hr Hrows]; subst.
    cbn [ListPublicShares_loop] in H.
    rewrite (expired_scan now r Hr) in H.
    cbn [filter]. destruct (row_expired now r); cbn [negb].
    + now apply IH in H.
    + destruct (link.PasswordProtected _ && sign).
      * destruct (AddSignature now _ _) as [s'|e] eqn:HA; [|discriminate].
        apply IH in H; [|assumption].
        rewrite H, map_app, <- app_assoc. cbn [map app].
        now rewrite (AddSignature_unsigned _ _ _ _ HA).
      * apply IH in H; [|assumption].
        rewrite H, map_app, <- app_assoc. reflexivity.
Qed.

End Facts.

(** ** Expired shares read as absent *)

Section Expiry.
Context {E : Externals}.

Lemma GetPublicShare_expired (c : config) (now : Time) (db : Table)
      (u : user.User) (ref : link.PublicShareReference) (sign : bool) (r : Row) :
  Forall wf_row db ->
  designated db u ref = Some r ->
  row_expired now r = true ->
  GetPublicShare c now db u ref sign = (Error NotFound, cleanupExpiredShares c now db).
Proof.
  intros Hwf Hd Hexp. unfold GetPublicShare, designated in *.
  destruct ref as [i|tkn|]; [| |discriminate].
  - unfold getByID. rewrite Hd.
    apply QueryRow_In in Hd as [Hin _].
    rewrite expired_scan_keep_id by (eapply Forall_wf_In; eauto).
    now rewrite Hexp.
  - destruct (String.eqb tkn ""); [discriminate|]. cbn [negb].
    unfold getByToken. rewrite Hd.
    apply QueryRow_In in Hd as [Hin _].
    rewrite expired_scan_keep_token by (eapply Forall_wf_In; eauto).
    now rewrite Hexp.
Qed.

Lemma GetPublicShareByToken_expired (c : config) (now : Time) (db : Table)
      (tkn : string) (auth : link.PublicShareAuthentication) (sign : bool) (r : Row) :
  Forall wf_row db ->
  QueryRow (GetPublicShareByToken_where tkn) db = Some r ->
  row_expired now r = true ->
  GetPublicShareByToken c now db tkn auth sign
  = (Error NotFound, cleanupExpiredShares c now db).
Proof.
  intros Hwf Hq Hexp. unfold GetPublicShareByToken. rewrite Hq.
  apply QueryRow_In in Hq as [Hin _].
  rewrite expired_scan_keep_token by (eapply Forall_wf_In; eauto).
  now rewrite Hexp.
Qed.

Lemma ListPublicShares_unexpired (c : config) (now : Time) (db : Table)
      (u : user.User) (filters : list link.Filter) (sign : bool)
      (shares : list link.PublicShare) (db' : Table) :
  Forall wf_row db ->
  ListPublicShares c now db u filters sign = (Ok shares, db') ->
  exists q,
    uidOwnerFilters u filters = Ok q /\
    map unsigned shares =
    map (fun r => conversions.ConvertToCS3PublicShare (scan r))
        (filter (fun r => negb (row_expired now r))
                (Query (ListPublicShares_where filters q) db)).
Proof.
  intros Hwf H. unfold ListPublicShares in H.
  destruct (uidOwnerFilters u filters) as [q|e]; [|discriminate].
  exists q; split; [reflexivity|].
  apply ListPublicShares_loop_shares in H; [exact H|].
  now apply Forall_wf_Query.
Qed.

(* Without signing the listing always returns a slice. *)
Lemma ListPublicShares_loop_returns (c : config) (now : Time) :
  forall rows acc db,
    exists shares db',
      ListPublicShares_loop c now false rows acc db = (Ok shares, db').
Proof.
  induction rows as [|r rows IH]; intros acc db; cbn [ListPublicShares_loop].
  - now exists acc, db.
  - destruct (expired now _); [apply IH|].
    rewrite andb_false_r. apply IH.
Qed.

Lemma ListPublicShares_returns (c : config) (now : Time) (db : Table)
      (u : user.User) (filters : list link.Filter) :
  GetGatewayServiceClient = None ->
  exists shares db',
    ListPublicShares c now db u filters false = (Ok shares, db').
Proof.
  intros Hg. unfold ListPublicShares, uidOwnerFilters. rewrite Hg.
  destruct (existsb (isProjectAdmin u) filters); apply ListPublicShares_loop_returns.
Qed.

End Expiry.

(** C1. A share whose expiration instant is in the past is absent on every
    read path, whatever its orphan column holds: [GetPublicShare] on a
    reference that designates it returns NotFound, [GetPublicShareByToken]
    on its token returns NotFound, and the slice [ListPublicShares] returns
    is made of the selected rows that are not expired, in order. *)
Theorem C1_expired_shares_are_absent
        {E : Externals} (c : config) (now : Time) (db : Table)
        (Hwf : Forall wf_row db) :
  (forall u ref sign r,
      designated db u ref = Some r -> row_expired now r = true ->
      fst (GetPublicShare c now db u ref sign) = Error NotFound)
  /\ (forall u filters sign shares db',
         ListPublicShares c now db u filters sign = (Ok shares, db') ->
         (forall r, In r db -> row_expired now r = true ->
                    ~ In (conversions.ConvertToCS3PublicShare (scan r))
                         (map unsigned shares))
         /\ exists q,
           uidOwnerFilters u filters = Ok q /\
           map unsigned shares =
           map (fun r => conversions.ConvertToCS3PublicShare (scan r))
               (filter (fun r => negb (row_expired now r))
                       (Query (ListPublicShares_where filters q) db)))
  /\ (forall tkn auth sign r,
         QueryRow (GetPublicShareByToken_where tkn) db = Some r ->
         row_expired now r = true ->
         fst (GetPublicShareByToken c now db tkn auth sign) = Error NotFound).
Proof.
  split; [|split].
  - intros u ref sign r Hd Hexp.
    now rewrite (GetPublicShare_expired c now db u ref sign r Hwf Hd Hexp).
  - intros u filters sign shares db' H.
    destruct (ListPublicShares_unexpired c now db u filters sign shares db' Hwf H)
      as [q [Hq Heq]].
    split; [|exists q; split; assumption].
    intros r Hin Hexp Hmem. rewrite Heq in Hmem.
    apply in_map_iff in Hmem as [r' [Hconv Hr']].
    apply filter_In in Hr' as [Hr' Hne].
    assert (Hw : wf_row r') by
      (unfold Query in Hr'; apply filter_In in Hr' as [Hr' _];
       eapply Forall_wf_In; eauto).
    assert (Hw0 : wf_row r) by (eapply Forall_wf_In; eauto).
    rewrite <- (expired_scan now r' Hw), Hconv, (expired_scan now r Hw0), Hexp in Hne.
    discriminate.
  - intros tkn auth sign r Hq Hexp.
    now rewrite (GetPublicShareByToken_expired c now db tkn auth sign r Hwf Hq Hexp).
Qed.

Lemma ex_expiry_db_wf : Forall wf_row ex_expiry_db.
Proof.
  repeat constructor; cbn; unfold in_int64; lia.
Defined.

Lemma C1_expired_shares_are_absent_witness :
  fst (GetPublicShare (E := ex_externals) ex_config ex_evening ex_expiry_db
                      ex_alice (link.RefToken "tok-old") false) = Error NotFound
  /\ (forall shares db',
         ListPublicShares (E := ex_externals) ex_config ex_evening ex_expiry_db
                          ex_alice [] false = (Ok shares, db') ->
         ~ In (conversions.ConvertToCS3PublicShare (scan ex_old_row))
              (map unsigned shares))
  /\ fst (GetPublicShareByToken (E := ex_externals) ex_config ex_evening
                                ex_expiry_db "tok-old" ex_no_auth false)
     = Error NotFound.
Proof.
  destruct (C1_expired_shares_are_absent (E := ex_externals)
              ex_config ex_evening ex_expiry_db ex_expiry_db_wf) as [HG [HL HT]].
  split; [|split].
  - apply (HG ex_alice (link.RefToken "tok-old") false ex_old_row); reflexivity.
  - intros shares db' H.
    destruct (HL ex_alice [] false shares db' H) as [Hno _].
    apply Hno; [left; reflexivity | reflexivity].
  - apply (HT "tok-old" ex_no_auth false ex_old_row); reflexivity.
Defined.

(** ** Orphaned rows *)

Lemma orphan_rows_not_designated (db : Table) (u : user.User)
      (ref : link.PublicShareReference) (r : Row) :
  designated db u ref = Some r -> orphan r <> Some true.
Proof.
  intros H Ho. unfold designated in H.
  assert (orphan_unset r = true) as Hu.
  { destruct ref as [i|tkn|]; [| |discriminate].
    - apply QueryRow_In in H as [_ H]. unfold getByID_where in H.
      now repeat (apply andb_prop in H as [H _]).
    - destruct (String.eqb tkn ""); [discriminate|].
      apply QueryRow_In in H as [_ H]. unfold getByToken_where in H.
      now repeat (apply andb_prop in H as [H _]). }
  unfold orphan_unset in Hu. rewrite Ho in Hu. discriminate.
Qed.

Lemma orphan_rows_not_listed (filters : list link.Filter) (q : OwnerQuery)
      (db : Table) (r : Row) :
  In r (Query (ListPublicShares_where filters q) db) -> orphan r <> Some true.
Proof.
  intros H Ho. unfold Query in H. apply filter_In in H as [_ H].
  unfold ListPublicShares_where in H.
  repeat (apply andb_prop in H as [H _]).
  unfold orphan_unset in H. rewrite Ho in H. discriminate.
Qed.

(** C2. The lookup of [GetPublicShareByToken] has no orphan condition: on a
    table whose only row has its orphan column set, [GetPublicShare] by token
    answers NotFound while [GetPublicShareByToken] on the same token returns
    the share. *)
Theorem C2_GetPublicShareByToken_reaches_orphan {E : Externals} :
  map orphan ex_orphan_db = [Some true]
  /\ fst (GetPublicShare ex_config ex_evening ex_orphan_db ex_alice
                         (link.RefToken "tok") false) = Error NotFound
  /\ fst (GetPublicShareByToken ex_config ex_evening ex_orphan_db "tok"
                                ex_no_auth false)
     = Ok (conversions.ConvertToCS3PublicShare
             (scan (set_orphan (Some true) (ex_row "1" "tok" "alice")))).
Proof. repeat split. Qed.

(** ** Capability signatures *)

Lemma authenticate_signature {E : Externals} (now : Time) (share : link.PublicShare)
      (pw : string) (sg : link.ShareSignature) :
  authenticate now share pw (signature_attempt sg) = true <->
  (CreateSignature (link.Token share) pw (instant (link.SignatureExpiration sg))
   = Ok (link.Signature sg)
   /\ now <= instant (link.SignatureExpiration sg)).
Proof.
  unfold authenticate, signature_attempt, instant, After; cbn.
  set (exp := time_Unix _ _).
  destruct (Z.ltb_spec exp now) as [Hlt|Hge].
  - split; [discriminate|]. intros [_ H]. lia.
  - destruct (CreateSignature (link.Token share) pw exp) as [s|e].
    + rewrite String.eqb_eq. split.
      * intros ->. split; [reflexivity|assumption].
      * intros [H _]. now inversion H.
    + split; [discriminate|]. intros [H _]. discriminate.
Qed.

Lemma instant_plain (ts : typespb.Timestamp) :
  0 <= typespb.Seconds ts -> 0 <= typespb.Nanos ts ->
  typespb.Seconds ts + typespb.Nanos ts / second + unixToInternal < 2 ^ 63 ->
  instant ts = typespb.Seconds ts * second + typespb.Nanos ts.
Proof.
  intros Hs Hn Hfit. unfold instant, time_Unix.
  pose proof (Z.div_pos (typespb.Nanos ts) second Hn ltac:(reflexivity)) as Hq.
  assert (Hoff : 0 <= unixToInternal) by (unfold unixToInternal; lia).
  rewrite (int64_id (typespb.Seconds ts)) by (unfold in_int64; lia).
  rewrite (int64_id (typespb.Seconds ts + typespb.Nanos ts / second))
    by (unfold in_int64; lia).
  rewrite int64_id by (unfold in_int64; lia).
  pose proof (Z.div_mod (typespb.Nanos ts) second ltac:(discriminate)) as Hdm.
  lia.
Qed.

(** C3 (as the code has it). Verification of a signature attempt succeeds
    iff the candidate equals the signature freshly computed for the token,
    the secret and the claimed expiration, and the current time is not after
    that expiration.  So the signature made for an expiration verifies as
    long as now <= expiration, the expiration instant included, and no
    longer once now > expiration.  The expiration is the instant [time.Unix]
    makes of the claimed seconds and nanoseconds: their plain value as long
    as the seconds counted from year 1 fit an int64, a wrapped one beyond. *)
Theorem C3_signature_verification
        {E : Externals} (now : Time) (share : link.PublicShare) (pw : string) :
  (forall sg,
      authenticate now share pw (signature_attempt sg) = true <->
      (CreateSignature (link.Token share) pw (instant (link.SignatureExpiration sg))
       = Ok (link.Signature sg)
       /\ now <= instant (link.SignatureExpiration sg)))
  /\ (forall ts s,
         CreateSignature (link.Token share) pw (instant ts) = Ok s ->
         authenticate now share pw
           (signature_attempt {| link.Signature := s; link.SignatureExpiration := ts |})
         = (now <=? instant ts))
  /\ (forall ts,
         0 <= typespb.Seconds ts -> 0 <= typespb.Nanos ts ->
         typespb.Seconds ts + typespb.Nanos ts / second + unixToInternal < 2 ^ 63 ->
         instant ts = typespb.Seconds ts * second + typespb.Nanos ts).
Proof.
  split; [|split].
  - intros sg. apply authenticate_signature.
  - intros ts s Hs.
    destruct (Z.leb_spec now (instant ts)) as [Hle|Hgt].
    + apply authenticate_signature. cbn. now split.
    + destruct (authenticate _ _ _ _) eqn:Ha; [|reflexivity].
      apply authenticate_signature in Ha as [_ Ha]. cbn in Ha. lia.
  - apply instant_plain.
Qed.

(* Beyond what a time.Time can hold the seconds wrap around: the largest
   expiration a message can claim lies in the past for time.Unix, and the
   matching signature is refused. *)
Lemma authenticate_wrapped_expiration :
  let ts := {| typespb.Seconds := 2 ^ 63 - 1; typespb.Nanos := 0 |} in
  let share := conversions.ConvertToCS3PublicShare (scan (ex_row "1" "tok" "alice")) in
  let sg := {| link.Signature := "tok|secret"; link.SignatureExpiration := ts |} in
  instant ts < 0
  /\ authenticate (E := ex_externals) ex_evening share "secret" (signature_attempt sg)
     = false.
Proof. cbv zeta. split; reflexivity. Qed.

(** C3, the specification as written fails at the expiration instant itself: with
    now = expiration the matching signature is accepted although now is not
    strictly before the expiration. *)
Lemma C3_counterexample :
  let ts := {| typespb.Seconds := 1700000000; typespb.Nanos := 0 |} in
  let share := conversions.ConvertToCS3PublicShare (scan (ex_row "1" "tok" "alice")) in
  let sg := {| link.Signature := "tok|secret"; link.SignatureExpiration := ts |} in
  CreateSignature (Externals := ex_externals) (link.Token share) "secret" (instant ts)
  = Ok (link.Signature sg)
  /\ ex_evening = instant ts
  /\ authenticate (E := ex_externals) ex_evening share "secret" (signature_attempt sg)
     = true
  /\ ~ (authenticate (E := ex_externals) ex_evening share "secret" (signature_attempt sg)
        = true <->
        (CreateSignature (Externals := ex_externals) (link.Token share) "secret" (instant ts)
         = Ok (link.Signature sg)
         /\ ex_evening < instant ts)).
Proof.
  cbv zeta. split; [reflexivity|]. split; [reflexivity|]. split; [reflexivity|].
  intros [H _]. specialize (H eq_refl). destruct H as [_ H].
  vm_compute in H. discriminate.
Qed.

(** ** Selectors that match no row *)

Lemma filter_nil_length (p : Row -> bool) (db : Table) :
  filter p db = [] -> Z.of_nat (List.length (filter p db)) = 0.
Proof. now intros ->. Qed.

Lemma RevokePublicShare_zero_rows (db : Table) (u : user.User)
      (ref : link.PublicShareReference) :
  Query (selected (conversions.FormatUserID (user.Id u)) ref) db = [] ->
  fst (RevokePublicShare db u ref) = Some NotFound.
Proof.
  unfold Query, RevokePublicShare, ExecDelete.
  set (uid := conversions.FormatUserID (user.Id u)).
  destruct ref as [i|tkn|]; intros H; [| |reflexivity].
  - change (filter (update_id_where i uid) db = []) in H.
    destruct (String.eqb i ""); [reflexivity|]. cbn [negb].
    now rewrite H.
  - change (filter (update_token_where tkn uid) db = []) in H.
    destruct (String.eqb tkn ""); [reflexivity|]. cbn [negb].
    now rewrite H.
Qed.

Lemma find_filter_nil (p q : Row -> bool) (db : Table) :
  (forall r, q r = true -> p r = true) -> filter p db = [] -> find q db = None.
Proof.
  intros Hpq. induction db as [|r db IH]; [reflexivity|]. cbn.
  destruct (p r) eqn:Hp; [discriminate|]. intros H.
  destruct (q r) eqn:Hq; [rewrite (Hpq r Hq) in Hp; discriminate|].
  now apply IH.
Qed.

Lemma ExecUpdate_filter_nil (f : Row -> Row) (p : Row -> bool) (db : Table) :
  filter p db = [] -> ExecUpdate f p db = db.
Proof.
  unfold ExecUpdate. induction db as [|r db IH]; [reflexivity|]. cbn.
  destruct (p r); [discriminate|]. intros H. now rewrite IH.
Qed.

Lemma UpdatePublicShare_by_id_zero_rows
      {E : Externals} (c : config) (now : Time) (db : Table) (u : user.User)
      (i : string) (upd : option link.Update) (a : Assignment) :
  paramsMap c upd = Ok a ->
  Query (selected (conversions.FormatUserID (user.Id u)) (link.RefId i)) db = [] ->
  UpdatePublicShare c now db u {| link.Ref := link.RefId i; link.GetUpdate := upd |}
  = (Error NotFound, db).
Proof.
  unfold Query, UpdatePublicShare. cbn [link.Ref link.GetUpdate]. intros -> H.
  change (filter (update_id_where i (conversions.FormatUserID (user.Id u))) db = [])
    in H.
  rewrite (ExecUpdate_filter_nil _ _ _ H).
  unfold GetPublicShare, getByID, QueryRow.
  rewrite (find_filter_nil (update_id_where i (conversions.FormatUserID (user.Id u)))
             (getByID_where i (conversions.FormatUserID (user.Id u))) db); auto.
  intros r Hr. unfold getByID_where in Hr. unfold update_id_where.
  apply andb_prop in Hr as [Hr Ho]. apply andb_prop in Hr as [_ Hi].
  now rewrite Hi, Ho.
Qed.

(** C4. [UpdatePublicShare] never looks at the number of rows its statement
    affected.  A caller who is neither owner nor creator of the share named
    by token updates zero rows and still gets the share back from the
    public token lookup; [RevokePublicShare] with the same selector answers
    NotFound. *)
Theorem C4_update_by_token_ignores_zero_rows {E : Externals} :
  let db := [ex_row "1" "tok" "alice"] in
  let ref := link.RefToken "tok" in
  Query (selected (conversions.FormatUserID (user.Id ex_bob)) ref) db = []
  /\ UpdatePublicShare ex_config ex_evening db ex_bob (ex_rename ref "renamed")
     = (Ok (conversions.ConvertToCS3PublicShare (scan (ex_row "1" "tok" "alice"))), db)
  /\ fst (RevokePublicShare db ex_bob ref) = Some NotFound.
Proof. repeat split. Qed.

(** ** The ownership clause of the listing *)

Lemma uidOwnerFilters_admin {E : Externals} (u : user.User) (filters : list link.Filter) :
  GetGatewayServiceClient = None ->
  existsb (isProjectAdmin u) filters = true ->
  uidOwnerFilters u filters = Ok Unrestricted.
Proof. unfold uidOwnerFilters. now intros -> ->. Qed.

Lemma uidOwnerFilters_no_admin {E : Externals} (u : user.User) (filters : list link.Filter) :
  GetGatewayServiceClient = None ->
  existsb (isProjectAdmin u) filters = false ->
  uidOwnerFilters u filters = Ok (OwnerOrInitiator (conversions.FormatUserID (user.Id u))).
Proof. unfold uidOwnerFilters. now intros -> ->. Qed.

(** C5. The ownership clause is dropped for the whole statement as soon as
    the caller administers the project of one resource filter.  bob is in
    the admin group of project alpha only; listing with resource filters on
    alpha and on beta returns carol's link on the resource of beta, which bob
    neither owns nor created. *)
Theorem C5_admin_of_one_project_lists_another :
  let filters := [link.TYPE_RESOURCE_ID ex_alpha; link.TYPE_RESOURCE_ID ex_beta] in
  isProjectAdmin (E := ex_externals) ex_bob (link.TYPE_RESOURCE_ID ex_alpha) = true
  /\ isProjectAdmin (E := ex_externals) ex_bob (link.TYPE_RESOURCE_ID ex_beta) = false
  /\ owner_or_initiator (conversions.FormatUserID (user.Id ex_bob)) ex_carol_on_beta = false
  /\ ListPublicShares (E := ex_externals) ex_config ex_evening [ex_carol_on_beta]
                      ex_bob filters false
     = (Ok [conversions.ConvertToCS3PublicShare (scan ex_carol_on_beta)],
        [ex_carol_on_beta])
  /\ ListPublicShares (E := ex_externals) ex_config ex_evening [ex_carol_on_beta]
                      ex_bob [link.TYPE_RESOURCE_ID ex_beta] false
     = (Ok [], [ex_carol_on_beta]).
Proof. repeat split. Qed.

(** ** The share type discriminator *)

(** C8. The update, the delete and the orphan-marking sweep carry no
    share_type condition.  On a table holding a user share (share_type 0) of
    alice: revoking by its id deletes it, renaming by its id rewrites it, and
    a sweep marks it orphaned. *)
Theorem C8_statements_without_share_type {E : Externals} :
  share_type ex_user_share = 0
  /\ RevokePublicShare [ex_user_share] ex_alice (link.RefId "9") = (None, [])
  /\ snd (UpdatePublicShare ex_config ex_morning [ex_user_share] ex_alice
                            (ex_rename (link.RefId "9") "renamed"))
     = [set_stime 1699956000 (set_share_name (Some "renamed") ex_user_share)]
  /\ cleanupExpiredShares ex_config_cleanup ex_morning [ex_user_share]
     = [set_orphan (Some true) ex_user_share].
Proof. repeat split. Qed.

(** ** The cleanup sweep *)

Lemma cleanupExpiredShares_disabled (c : config) (now : Time) (db : Table) :
  EnableExpiredSharesCleanup c = false -> cleanupExpiredShares c now db = db.
Proof. unfold cleanupExpiredShares. now intros ->. Qed.

Lemma hour12_id (h : Z) : 1 <= h <= 12 -> hour12 h = h.
Proof.
  intros Hh. unfold hour12.
  assert (h = 12 \/ h < 12) as [->|Hlt] by lia; [reflexivity|].
  rewrite Z.mod_small by lia.
  destruct (Z.eqb_spec h 0); [lia|reflexivity].
Qed.

Lemma Format_hours_1_to_12 (now : Time) :
  1 <= hour_of_day (Unix now) <= 12 -> Format_2006_01_02_03_04_05 now = Unix now.
Proof.
  intros Hh. unfold Format_2006_01_02_03_04_05. cbv zeta.
  rewrite (hour12_id _ Hh). lia.
Qed.

Lemma cleanupExpiredShares_enabled (c : config) (now : Time) (db : Table) :
  EnableExpiredSharesCleanup c = true ->
  1 <= hour_of_day (Unix now) <= 12 ->
  cleanupExpiredShares c now db = mark_expired_before (Unix now) db.
Proof.
  intros Hen Hh. unfold cleanupExpiredShares, mark_expired_before, ExecUpdate.
  rewrite Hen, (Format_hours_1_to_12 now Hh). cbn [negb].
  apply map_ext. intros r. unfold cleanup_where.
  now destruct (expiration r).
Qed.

Lemma mark_expired_before_orphan (t : Z) (db : Table) (r' : Row) (e : Z) :
  In r' (mark_expired_before t db) -> expiration r' = Some e -> e < t ->
  orphan r' = Some true.
Proof.
  unfold mark_expired_before. intros Hin He Hlt.
  apply in_map_iff in Hin as [r [Hr _]]. subst r'.
  destruct (expiration r) as [e0|] eqn:He0.
  - destruct (Z.ltb_spec e0 t) as [H0|H0]; [reflexivity|].
    rewrite He0 in He. inversion He. lia.
  - rewrite He0 in He. discriminate.
Qed.

Lemma time_Unix_seconds_le (e : Z) : in_int64 e -> time_Unix e 0 <= e * second.
Proof.
  intros He. unfold time_Unix.
  replace (0 / second) with 0 by reflexivity.
  replace (0 mod second) with 0 by reflexivity.
  rewrite !Z.add_0_r, (int64_id e He).
  assert (int64 (e + unixToInternal) <= e + unixToInternal) as Hle
    by (apply int64_le; unfold in_int64, unixToInternal in *; lia).
  unfold second. lia.
Qed.

Lemma row_expired_of_seconds (now : Time) (r : Row) (e : Z) :
  wf_row r -> expiration r = Some e -> e < Unix now -> row_expired now r = true.
Proof.
  unfold wf_row, row_expired, Unix. intros Hwf He H. rewrite He in *.
  apply Z.ltb_lt.
  pose proof (time_Unix_seconds_le e Hwf) as Hle.
  assert (e + 1 <= now / second) as H1 by lia.
  pose proof (Z.mul_div_le now second ltac:(reflexivity)) as H2.
  unfold second in *. lia.
Qed.

(** C6 (as the code has it). Provided the cleanup of expired shares is
    enabled in the configuration, a cleanup sweep run at a clock hour from 1
    to 12, be it a Janitor tick or the inline cleanup of a read that meets an
    expired share, sets orphan = 1 on all rows whose expiration is set and
    earlier than the current time and touches nothing else; a Get on a share
    whose expiration is at least one second in the past returns NotFound and
    leaves that swept table, where the share's row shows orphan = true. *)
Theorem C6_cleanup_sweep_when_enabled
        {E : Externals} (c : config) (now : Time) (db : Table)
        (Hen : EnableExpiredSharesCleanup c = true)
        (Hhour : 1 <= hour_of_day (Unix now) <= 12)
        (Hwf : Forall wf_row db) :
  janitorTick c now db = mark_expired_before (Unix now) db
  /\ (forall r' e, In r' (janitorTick c now db) ->
                   expiration r' = Some e -> e < Unix now -> orphan r' = Some true)
  /\ (forall u ref sign r e,
         designated db u ref = Some r ->
         expiration r = Some e -> e < Unix now ->
         GetPublicShare c now db u ref sign
         = (Error NotFound, mark_expired_before (Unix now) db)
         /\ In (set_orphan (Some true) r) (mark_expired_before (Unix now) db)).
Proof.
  unfold janitorTick. rewrite (cleanupExpiredShares_enabled c now db Hen Hhour).
  split; [reflexivity|]. split.
  - intros r' e. apply mark_expired_before_orphan.
  - intros u ref sign r e Hd He Hlt.
    assert (Hr : wf_row r).
    { apply (Forall_wf_In db r Hwf). unfold designated in Hd.
      destruct ref as [i|tkn|]; [| |discriminate].
      - now apply QueryRow_In in Hd.
      - destruct (String.eqb tkn ""); [discriminate|].
        now apply QueryRow_In in Hd. }
    split.
    + rewrite (GetPublicShare_expired c now db u ref sign r Hwf Hd
                 (row_expired_of_seconds now r e Hr He Hlt)).
      now rewrite (cleanupExpiredShares_enabled c now db Hen Hhour).
    + unfold mark_expired_before. apply in_map_iff. exists r. split.
      * rewrite He. apply Z.ltb_lt in Hlt. now rewrite Hlt.
      * unfold designated in Hd. destruct ref as [i|tkn|]; [| |discriminate].
        -- now apply QueryRow_In in Hd.
        -- destruct (String.eqb tkn ""); [discriminate|].
           now apply QueryRow_In in Hd.
Qed.

Lemma CreatePublicShare_just_expired {E : Externals} (c : config) :
  snd (CreatePublicShare c ex_morning [] "tok" 1 ex_alice ex_rinfo
                         (ex_grant_expiring (Unix ex_morning - 1)) "" false)
  = [ex_just_expired_row]
  /\ orphan ex_just_expired_row = None.
Proof. split; reflexivity. Qed.

Lemma ex_morning_db_wf : Forall wf_row [ex_just_expired_row].
Proof.
  repeat constructor; cbn; unfold in_int64; lia.
Defined.

Lemma ex_morning_hour : 1 <= hour_of_day (Unix ex_morning) <= 12.
Proof. vm_compute. split; discriminate. Defined.

Lemma C6_cleanup_sweep_when_enabled_witness :
  let created :=
    CreatePublicShare (E := ex_externals) ex_config_cleanup ex_morning [] "tok" 1
      ex_alice ex_rinfo (ex_grant_expiring (Unix ex_morning - 1)) "" false in
  snd created = [ex_just_expired_row]
  /\ janitorTick ex_config_cleanup ex_morning (snd created)
     = [set_orphan (Some true) ex_just_expired_row]
  /\ GetPublicShare (E := ex_externals) ex_config_cleanup ex_morning (snd created)
                    ex_alice (link.RefToken "tok") false
     = (Error NotFound, [set_orphan (Some true) ex_just_expired_row]).
Proof.
  cbv zeta.
  destruct (C6_cleanup_sweep_when_enabled (E := ex_externals)
              ex_config_cleanup ex_morning [ex_just_expired_row]
              eq_refl ex_morning_hour ex_morning_db_wf) as [HJ [_ HG]].
  split; [reflexivity|]. split.
  - exact HJ.
  - destruct (HG ex_alice (link.RefToken "tok") false ex_just_expired_row
                 1699955999 eq_refl eq_refl eq_refl) as [H _].
    exact H.
Defined.

(** C6, the specification as written fails when cleanup is not enabled, which is the
    default: after a share is created with expiration = now - 1s, the Get on
    it returns NotFound and the row is left with its orphan column unset; a
    Janitor tick leaves the table as it is. *)
Lemma C6_counterexample :
  let created :=
    CreatePublicShare (E := ex_externals) ex_config ex_morning [] "tok" 1
      ex_alice ex_rinfo (ex_grant_expiring (Unix ex_morning - 1)) "" false in
  let got :=
    GetPublicShare (E := ex_externals) ex_config ex_morning (snd created)
                   ex_alice (link.RefToken "tok") false in
  EnableExpiredSharesCleanup ex_config = false
  /\ is_ok (fst created) = true
  /\ fst got = Error NotFound
  /\ map orphan (snd got) = [None]
  /\ janitorTick ex_config ex_morning (snd created) = snd created
  /\ ~ (forall r', In r' (snd got) -> orphan r' = Some true).
Proof.
  cbv zeta. repeat split.
  intros H. specialize (H _ (or_introl eq_refl)). discriminate.
Qed.

(** The twelve-hour layout of the sweep's parameter: in the evening the
    parameter lies twelve hours back, and a share that expired a second ago
    is not marked although cleanup is enabled. *)
Lemma cleanupExpiredShares_evening :
  Format_2006_01_02_03_04_05 ex_evening = Unix ex_evening - 12 * 3600
  /\ cleanupExpiredShares ex_config_cleanup ex_evening ex_expiry_db = ex_expiry_db.
Proof. split; reflexivity. Qed.

(** ** The frame of an update *)

Lemma paramsMap_kind {E : Externals} (c : config) (up : link.Update) (a : Assignment) :
  paramsMap c (Some up) = Ok a -> kind a = link.Type_ up.
Proof.
  unfold paramsMap. destruct (link.Type_ up); intros H; try discriminate.
  - destruct (link.GetGrant up) as [g|]; [|discriminate].
    destruct (link.GrantPermissions g); inversion H; reflexivity.
  - destruct (link.GetGrant up) as [g|]; [|discriminate].
    destruct (String.eqb (link.Password g) ""); [inversion H; reflexivity|].
    destruct (hashPassword _ _) as [h [e|]]; inversion H; reflexivity.
  - destruct (link.GetGrant up) as [g|]; [|discriminate].
    destruct (link.GrantExpiration g); inversion H; reflexivity.
  - inversion H; reflexivity.
  - inversion H; reflexivity.
Qed.

Lemma unchanged_outside_refl (k : link.UpdateType) (r : Row) : unchanged_outside k r r.
Proof. unfold unchanged_outside. repeat split; reflexivity. Qed.

Lemma unchanged_outside_assign (a : Assignment) (t : Z) (r : Row) :
  unchanged_outside (kind a) r (set_stime t (assign a r)).
Proof.
  unfold unchanged_outside.
  destruct a; cbn; repeat split; try reflexivity; intros H; now elim H.
Qed.

Lemma GetPublicShare_ok_table {E : Externals} (c : config) (now : Time) (db db' : Table)
      (u : user.User) (ref : link.PublicShareReference) (sign : bool)
      (s : link.PublicShare) :
  GetPublicShare c now db u ref sign = (Ok s, db') -> db' = db.
Proof.
  unfold GetPublicShare.
  match goal with |- context [match ?l with Ok _ => _ | Error _ => _ end] =>
    destruct l as [[s0 pw]|e] end; [|discriminate].
  destruct (expired now s0); [discriminate|].
  destruct (link.PasswordProtected s0 && sign).
  - destruct (AddSignature now s0 pw); intros H; inversion H; reflexivity.
  - intros H; inversion H; reflexivity.
Qed.

Lemma Forall2_ExecUpdate (P : Row -> Row -> Prop) (f : Row -> Row)
      (p : Row -> bool) (db : Table) :
  (forall r, P r (if p r then f r else r)) -> Forall2 P db (ExecUpdate f p db).
Proof.
  intros H. unfold ExecUpdate. induction db as [|r db IH]; cbn; constructor; auto.
Qed.

(** C7 (as the code has it). A successful [UpdatePublicShare] leaves the
    table with the same rows in the same order; on a row the selector names
    it writes the column of the update kind and sets [stime] to the current
    time, and every other column is as before; a row the selector does not
    name is untouched. *)
Theorem C7_update_frame
        {E : Externals} (c : config) (now : Time) (db db' : Table) (u : user.User)
        (req : link.UpdatePublicShareRequest) (s : link.PublicShare)
        (Hok : UpdatePublicShare c now db u req = (Ok s, db')) :
  exists up,
    link.GetUpdate req = Some up /\
    Forall2 (fun r r' =>
               unchanged_outside (link.Type_ up) r r'
               /\ (selected (conversions.FormatUserID (user.Id u)) (link.Ref req) r = true ->
                   stime r' = Unix now)
               /\ (selected (conversions.FormatUserID (user.Id u)) (link.Ref req) r = false ->
                   r' = r))
            db db'.
Proof.
  unfold UpdatePublicShare in Hok.
  destruct (link.GetUpdate req) as [up|] eqn:Hup; [|discriminate].
  exists up. split; [reflexivity|].
  destruct (paramsMap c (Some up)) as [a|e] eqn:Ha; [|discriminate].
  apply paramsMap_kind in Ha. rewrite <- Ha.
  set (uid := conversions.FormatUserID (user.Id u)) in *.
  assert (Hrow : forall (p : Row -> bool) r,
             unchanged_outside (kind a) r
               (if p r then set_stime (Unix now) (assign a r) else r)
             /\ (p r = true ->
                 stime (if p r then set_stime (Unix now) (assign a r) else r) = Unix now)
             /\ (p r = false ->
                 (if p r then set_stime (Unix now) (assign a r) else r) = r)).
  { intros p r. destruct (p r).
    - split; [apply unchanged_outside_assign|]. split; [reflexivity|discriminate].
    - split; [apply unchanged_outside_refl|]. split; [discriminate|reflexivity]. }
  destruct (link.Ref req) as [i|tkn|]; [| |discriminate].
  - apply GetPublicShare_ok_table in Hok. subst db'.
    apply Forall2_ExecUpdate. intros r. apply (Hrow (update_id_where i uid)).
  - destruct (String.eqb tkn ""); [discriminate|]. cbn [negb] in Hok.
    apply GetPublicShare_ok_table in Hok. subst db'.
    apply Forall2_ExecUpdate. intros r. apply (Hrow (update_token_where tkn uid)).
Qed.

Lemma C7_update_frame_witness :
  let row := ex_row "1" "tok" "alice" in
  Forall2 (fun r r' =>
             unchanged_outside link.TYPE_DISPLAYNAME r r'
             /\ (selected "alice" (link.RefId "1") r = true -> stime r' = Unix ex_morning)
             /\ (selected "alice" (link.RefId "1") r = false -> r' = r))
          [row] [set_stime 1699956000 (set_share_name (Some "renamed") row)].
Proof.
  cbv zeta.
  destruct (C7_update_frame (E := ex_externals) ex_config ex_morning
              [ex_row "1" "tok" "alice"]
              [set_stime 1699956000 (set_share_name (Some "renamed") (ex_row "1" "tok" "alice"))]
              ex_alice (ex_rename (link.RefId "1") "renamed")
              (conversions.ConvertToCS3PublicShare
                 (scan (set_stime 1699956000
                          (set_share_name (Some "renamed") (ex_row "1" "tok" "alice")))))
              eq_refl) as [up [Hup H]].
  cbn in Hup. inversion Hup; subst up. exact H.
Defined.

(** C7, the specification as written fails on [stime]: renaming a share created at
    second 100 succeeds and leaves [stime] at the second of the update. *)
Lemma C7_counterexample :
  let row := ex_row "1" "tok" "alice" in
  let out := UpdatePublicShare (E := ex_externals) ex_config ex_morning [row] ex_alice
                               (ex_rename (link.RefId "1") "renamed") in
  is_ok (fst out) = true
  /\ map stime [row] = [100]
  /\ map stime (snd out) = [1699956000]
  /\ ~ (forall r', In r' (snd out) -> stime r' = stime row).
Proof.
  cbv zeta. repeat split.
  intros H. specialize (H _ (or_introl eq_refl)). discriminate.
Qed.

(** ** The password hasher *)

Lemma substring_all (s : string) : String.substring 0 (String.length s) s = s.
Proof. induction s as [|ch s IH]; cbn; [reflexivity|]. now rewrite IH. Qed.

Lemma prefix_empty (s : string) : String.prefix "" s = true.
Proof. now destruct s. Qed.

Lemma TrimPrefix_version_tag (bytes : string) :
  TrimPrefix (String.append "1|" bytes) "1|" = bytes.
Proof.
  unfold TrimPrefix, HasPrefix. cbn.
  rewrite prefix_empty, Nat.sub_0_r. apply substring_all.
Qed.

Section PasswordHasher.
Context {E : Externals}.


Lemma hashPassword_format (password : string) (cost : Z) :
  HasPrefix (fst (hashPassword password cost)) "1|" = true.
Proof.
  unfold hashPassword, HasPrefix.
  destruct (bcrypt_GenerateFromPassword password cost) as [bytes err]. cbn.
  apply prefix_empty.
Qed.

End PasswordHasher.


Lemma ex_bcrypt_contract : bcrypt_contract ex_externals.
Proof.
  split.
  - intros password cost h. cbn.
    destruct (31 <? cost); intros H; inversion H.
    now rewrite String.eqb_refl.
  - intros password cost h other. cbn.
    destruct (31 <? cost); intros H; inversion H; subst h.
    intros Hne. cbn.
    destruct (String.eqb_spec password other) as [Heq|Hneq];
      [now elim Hne | discriminate].
Defined.


(** C9, the specification as written fails at a cost the hashing library
    refuses: the sample library keeps bcrypt's contract and, as bcrypt does,
    returns an error for a cost above 31; [hashPassword] then returns the
    bare tag with the error, and the plaintext does not verify against it. *)
Lemma C9_counterexample :
  4 <= 32
  /\ hashPassword (E := ex_externals) "p@ss" 32
     = ("1|", Some (Err "cost out of range"))
  /\ checkPasswordHash (E := ex_externals) "p@ss"
       (fst (hashPassword (E := ex_externals) "p@ss" 32)) = false
  /\ ~ (forall plaintext cost,
          4 <= cost ->
          checkPasswordHash (E := ex_externals) plaintext
            (fst (hashPassword (E := ex_externals) plaintext cost)) = true).
Proof.
  split; [discriminate|]. split; [reflexivity|]. split; [reflexivity|].
  intros H. specialize (H "p@ss" 32 ltac:(discriminate)). discriminate.
Qed.

(** ** Authentication by token *)



(** * Further properties of the manager *)

Lemma find_None_intro {A} (p : A -> bool) (l : list A) :
  (forall x, In x l -> p x = false) -> find p l = None.
Proof.
  induction l as [|a l IH]; intros H; [reflexivity|]. cbn.
  rewrite (H a (or_introl eq_refl)). apply IH. intros x Hx. apply H. now right.
Qed.

Lemma filter_all {A} (p : A -> bool) (l : list A) :
  (forall x, In x l -> p x = true) -> filter p l = l.
Proof.
  induction l as [|a l IH]; intros H; [reflexivity|]. cbn.
  rewrite (H a (or_introl eq_refl)). f_equal. apply IH. intros x Hx. apply H. now right.
Qed.

Lemma filter_nil_all {A} (p : A -> bool) (l : list A) :
  filter p l = [] -> forall x, In x l -> p x = false.
Proof.
  intros H x Hx. destruct (p x) eqn:Hp; [|reflexivity].
  assert (In x (filter p l)) as Hin by (apply filter_In; now split).
  rewrite H in Hin. destruct Hin.
Qed.

Lemma set_orphan_same (r : Row) : set_orphan (orphan r) r = r.
Proof. now destruct r. Qed.

(** ** Revoking *)

Lemma RevokePublicShare_table (db : Table) (u : user.User)
      (ref : link.PublicShareReference) :
  snd (RevokePublicShare db u ref)
  = filter (fun r => negb (selected (conversions.FormatUserID (user.Id u)) ref r)) db
    \/ snd (RevokePublicShare db u ref) = db.
Proof.
  unfold RevokePublicShare, ExecDelete.
  set (uid := conversions.FormatUserID (user.Id u)).
  destruct ref as [i|tkn|]; [| |now right].
  - destruct (String.eqb i ""); [now right|]. cbn [negb].
    destruct (_ =? 0); left; reflexivity.
  - destruct (String.eqb tkn ""); [now right|]. cbn [negb].
    destruct (_ =? 0); left; reflexivity.
Qed.

Lemma RevokePublicShare_success (db : Table) (u : user.User)
      (ref : link.PublicShareReference) :
  fst (RevokePublicShare db u ref) = None ->
  snd (RevokePublicShare db u ref)
  = filter (fun r => negb (selected (conversions.FormatUserID (user.Id u)) ref r)) db
  /\ exists r, In r db /\ selected (conversions.FormatUserID (user.Id u)) ref r = true.
Proof.
  unfold RevokePublicShare, ExecDelete.
  set (uid := conversions.FormatUserID (user.Id u)).
  assert (Hex : forall p : Row -> bool,
             (Z.of_nat (List.length (filter p db)) =? 0) = false ->
             exists r, In r db /\ p r = true).
  { intros p Hp. destruct (filter p db) as [|r l] eqn:Hf; [discriminate|].
    exists r. apply filter_In. rewrite Hf. now left. }
  destruct ref as [i|tkn|]; [| |discriminate].
  - destruct (String.eqb i ""); [discriminate|]. cbn [negb].
    destruct (_ =? 0) eqn:Hz; [discriminate|]. intros _. split; [reflexivity|].
    now apply Hex.
  - destruct (String.eqb tkn ""); [discriminate|]. cbn [negb].
    destruct (_ =? 0) eqn:Hz; [discriminate|]. intros _. split; [reflexivity|].
    now apply Hex.
Qed.

(** X1. A share that was revoked is gone: after a successful
    [RevokePublicShare], [GetPublicShare] by the same caller on the same
    reference returns NotFound, provided that, for a token reference, the
    rows carrying the token all belong to the caller. *)
Theorem revoked_share_is_not_found
        {E : Externals} (c : config) (now : Time) (db : Table) (u : user.User)
        (ref : link.PublicShareReference) (sign : bool)
        (Hrevoked : fst (RevokePublicShare db u ref) = None)
        (Hown : forall tkn r,
            ref = link.RefToken tkn -> In r db -> col_eq (token r) tkn = true ->
            owner_or_initiator (conversions.FormatUserID (user.Id u)) r = true) :
  fst (GetPublicShare c now (snd (RevokePublicShare db u ref)) u ref sign)
  = Error NotFound.
Proof.
  destruct (RevokePublicShare_success db u ref Hrevoked) as [Hdb _].
  rewrite Hdb. clear Hdb Hrevoked.
  set (uid := conversions.FormatUserID (user.Id u)) in *.
  unfold GetPublicShare.
  destruct ref as [i|tkn|]; [| |reflexivity].
  - unfold getByID, QueryRow. fold uid.
    rewrite find_None_intro; [reflexivity|].
    intros r Hr. apply filter_In in Hr as [_ Hr]. cbn [selected] in Hr.
    unfold getByID_where. unfold update_id_where in Hr.
    destruct (String.eqb (id r) i), (owner_or_initiator uid r);
      cbn in *; try discriminate; now rewrite ?andb_false_r.
  - destruct (String.eqb tkn ""); [reflexivity|]. cbn [negb].
    unfold getByToken, QueryRow.
    rewrite find_None_intro; [reflexivity|].
    intros r Hr. apply filter_In in Hr as [Hin Hr]. cbn [selected] in Hr.
    unfold getByToken_where. unfold update_token_where in Hr.
    destruct (col_eq (token r) tkn) eqn:Ht; [|now rewrite andb_false_r].
    rewrite (Hown tkn r eq_refl Hin Ht) in Hr. discriminate.
Qed.

Lemma revoked_share_is_not_found_witness :
  RevokePublicShare ex_expiry_db ex_alice (link.RefId "2") = (None, [ex_old_row])
  /\ fst (GetPublicShare (E := ex_externals) ex_config ex_morning
            (snd (RevokePublicShare ex_expiry_db ex_alice (link.RefId "2")))
            ex_alice (link.RefId "2") false)
     = Error NotFound.
Proof.
  split; [reflexivity|].
  apply (revoked_share_is_not_found (E := ex_externals) ex_config ex_morning
           ex_expiry_db ex_alice (link.RefId "2") false eq_refl).
  intros tkn r H. discriminate.
Defined.

(** X2. [RevokePublicShare] deletes nothing but rows of the caller: a row
    of which the caller is neither owner nor creator is still in the table
    afterwards, every row left was there before, and a revocation answered
    with NotFound leaves the table as it was. *)
Theorem revoke_spares_other_users_rows
        (db : Table) (u : user.User) (ref : link.PublicShareReference) :
  (forall r, In r db ->
             owner_or_initiator (conversions.FormatUserID (user.Id u)) r = false ->
             In r (snd (RevokePublicShare db u ref)))
  /\ (forall r, In r (snd (RevokePublicShare db u ref)) -> In r db)
  /\ (fst (RevokePublicShare db u ref) = Some NotFound ->
      snd (RevokePublicShare db u ref) = db).
Proof.
  set (uid := conversions.FormatUserID (user.Id u)).
  split; [|split].
  - intros r Hin Hno.
    destruct (RevokePublicShare_table db u ref) as [H|H]; rewrite H; [|assumption].
    apply filter_In. split; [assumption|]. fold uid.
    destruct ref as [i|tkn|]; cbn [selected]; [| |reflexivity].
    + unfold update_id_where. now rewrite Hno, andb_false_r.
    + unfold update_token_where. now rewrite Hno, andb_false_r.
  - intros r.
    destruct (RevokePublicShare_table db u ref) as [H|H]; rewrite H; [|trivial].
    intros Hr. now apply filter_In in Hr.
  - unfold RevokePublicShare, ExecDelete. fold uid.
    assert (Hnil : forall p : Row -> bool,
               (Z.of_nat (List.length (filter p db)) =? 0) = true ->
               filter (fun r => negb (p r)) db = db).
    { intros p Hp. apply filter_all. intros x Hx.
      destruct (filter p db) as [|y l] eqn:Hf; [|discriminate].
      now rewrite (filter_nil_all p db Hf x Hx). }
    destruct ref as [i|tkn|]; [| |reflexivity].
    + destruct (String.eqb i ""); [reflexivity|]. cbn [negb].
      destruct (_ =? 0) eqn:Hz; [|discriminate]. intros _. now apply Hnil.
    + destruct (String.eqb tkn ""); [reflexivity|]. cbn [negb].
      destruct (_ =? 0) eqn:Hz; [|discriminate]. intros _. now apply Hnil.
Qed.

(** ** The sweep *)

Lemma ExecUpdate_set_orphan_twice (p : Z) (db : Table) :
  ExecUpdate (set_orphan (Some true)) (cleanup_where p)
    (ExecUpdate (set_orphan (Some true)) (cleanup_where p) db)
  = ExecUpdate (set_orphan (Some true)) (cleanup_where p) db.
Proof.
  unfold ExecUpdate. rewrite map_map. apply map_ext. intros r.
  destruct (cleanup_where p r) eqn:Hp.
  - change (cleanup_where p (set_orphan (Some true) r)) with (cleanup_where p r).
    now rewrite Hp.
  - now rewrite Hp.
Qed.

(** X3. The sweep is idempotent: running [cleanupExpiredShares] again at the
    same reading of the clock changes nothing more, whatever the
    configuration. *)
Theorem cleanupExpiredShares_idempotent (c : config) (now : Time) (db : Table) :
  cleanupExpiredShares c now (cleanupExpiredShares c now db)
  = cleanupExpiredShares c now db.
Proof.
  unfold cleanupExpiredShares.
  destruct (EnableExpiredSharesCleanup c); cbn [negb]; [|reflexivity].
  apply ExecUpdate_set_orphan_twice.
Qed.

(** X4. The sweep writes the orphan column only and never clears it: it
    keeps the rows and their order, each row keeps all its other columns,
    and its orphan column is either as before or set. *)
Theorem cleanupExpiredShares_frame (c : config) (now : Time) (db : Table) :
  Forall2 (fun r r' =>
             r' = set_orphan (orphan r') r
             /\ (orphan r' = orphan r \/ orphan r' = Some true)
             /\ (orphan r = Some true -> orphan r' = Some true))
          db (cleanupExpiredShares c now db).
Proof.
  assert (Hsame : forall r,
             r = set_orphan (orphan r) r
             /\ (orphan r = orphan r \/ orphan r = Some true)
             /\ (orphan r = Some true -> orphan r = Some true)).
  { intros r. rewrite set_orphan_same. auto. }
  unfold cleanupExpiredShares.
  destruct (EnableExpiredSharesCleanup c); cbn [negb].
  - apply Forall2_ExecUpdate. intros r.
    destruct (cleanup_where _ r); [|apply Hsame].
    cbn. auto.
  - induction db as [|r db IH]; constructor; [apply Hsame|assumption].
Qed.

Section ReadPaths.
Context {E : Externals}.

Lemma ListPublicShares_loop_table (c : config) (now : Time) (sign : bool) :
  forall rows acc db,
    snd (ListPublicShares_loop c now sign rows acc db) = db
    \/ snd (ListPublicShares_loop c now sign rows acc db)
       = cleanupExpiredShares c now db.
Proof.
  induction rows as [|r rows IH]; intros acc db; cbn [ListPublicShares_loop].
  - now left.
  - destruct (expired now _).
    + right. destruct (IH acc (cleanupExpiredShares c now db)) as [H|H];
        rewrite H; [reflexivity|apply cleanupExpiredShares_idempotent].
    + destruct (link.PasswordProtected _ && sign).
      * destruct (AddSignature now _ _); [apply IH|now left].
      * apply IH.
Qed.

End ReadPaths.

(** X5. The read paths write nothing but the sweep: the table left by
    [GetPublicShare], [ListPublicShares] and [GetPublicShareByToken] is the
    table they were given or that table swept once, however many expired
    rows a listing met; with cleanup disabled it is the table they were
    given. *)
Theorem read_paths_only_sweep
        {E : Externals} (c : config) (now : Time) (db : Table) (u : user.User)
        (ref : link.PublicShareReference) (filters : list link.Filter)
        (tkn : string) (auth : link.PublicShareAuthentication) (sign : bool) :
  let swept_or_same (db' : Table) :=
    (db' = db \/ db' = cleanupExpiredShares c now db)
    /\ (EnableExpiredSharesCleanup c = false -> db' = db) in
  swept_or_same (snd (GetPublicShare c now db u ref sign))
  /\ swept_or_same (snd (ListPublicShares c now db u filters sign))
  /\ swept_or_same (snd (GetPublicShareByToken c now db tkn auth sign)).
Proof.
  cbv zeta.
  assert (Hoff : forall db' : Table,
             db' = db \/ db' = cleanupExpiredShares c now db ->
             (db' = db \/ db' = cleanupExpiredShares c now db)
             /\ (EnableExpiredSharesCleanup c = false -> db' = db)).
  { intros db' H. split; [exact H|]. intros Hc.
    destruct H as [H|H]; [exact H|].
    now rewrite H, cleanupExpiredShares_disabled. }
  split; [|split]; apply Hoff.
  - unfold GetPublicShare.
    match goal with |- context [match ?l with Ok _ => _ | Error _ => _ end] =>
      destruct l as [[s0 pw]|e] end; [|now left].
    destruct (expired now s0); [now right|].
    destruct (link.PasswordProtected s0 && sign); [|now left].
    destruct (AddSignature now s0 pw); now left.
  - unfold ListPublicShares.
    destruct (uidOwnerFilters u filters); [|now left].
    apply ListPublicShares_loop_table.
  - unfold GetPublicShareByToken.
    destruct (QueryRow _ db) as [r|]; [|now left].
    destruct (expired now _); [now right|].
    destruct (negb (String.eqb _ "")); [|now left].
    destruct (negb (authenticate now _ _ auth)); [now left|].
    destruct sign; [|now left].
    destruct (AddSignature now _ _); now left.
Qed.

(** X6. What an enabled sweep marked is out of reach: once the table has
    been swept, no reference designates, for any caller, a row whose
    expiration lies before the parameter the sweep was run with. *)
Theorem swept_rows_are_not_designated
        (c : config) (now : Time) (db : Table) (u : user.User)
        (ref : link.PublicShareReference) (r : Row)
        (Hen : EnableExpiredSharesCleanup c = true)
        (Hd : designated (cleanupExpiredShares c now db) u ref = Some r) :
  cleanup_where (Format_2006_01_02_03_04_05 now) r = false.
Proof.
  pose proof (orphan_rows_not_designated _ _ _ _ Hd) as Hno.
  assert (Hin : In r (cleanupExpiredShares c now db)).
  { unfold designated in Hd. destruct ref as [i|tkn|]; [| |discriminate].
    - now apply QueryRow_In in Hd.
    - destruct (String.eqb tkn ""); [discriminate|]. now apply QueryRow_In in Hd. }
  unfold cleanupExpiredShares, ExecUpdate in Hin. rewrite Hen in Hin. cbn [negb] in Hin.
  apply in_map_iff in Hin as [r0 [Hr0 _]].
  destruct (cleanup_where _ r0) eqn:Hp.
  - subst r. now elim Hno.
  - now subst r.
Qed.

Lemma swept_rows_are_not_designated_witness :
  designated (cleanupExpiredShares ex_config_cleanup ex_morning
                [ex_just_expired_row; ex_live_row])
             ex_alice (link.RefToken "tok-live") = Some ex_live_row
  /\ designated (cleanupExpiredShares ex_config_cleanup ex_morning
                   [ex_just_expired_row; ex_live_row])
                ex_alice (link.RefToken "tok") = None
  /\ cleanup_where (Format_2006_01_02_03_04_05 ex_morning) ex_live_row = false.
Proof.
  split; [reflexivity|]. split; [reflexivity|].
  apply (swept_rows_are_not_designated ex_config_cleanup ex_morning
           [ex_just_expired_row; ex_live_row] ex_alice (link.RefToken "tok-live")
           ex_live_row eq_refl eq_refl).
Defined.

(** ** Creating *)

Lemma find_app_last {A} (p : A -> bool) (l : list A) (a : A) :
  (forall x, In x l -> p x = false) -> p a = true -> find p (l ++ [a]) = Some a.
Proof.
  induction l as [|b l IH]; intros H Ha; cbn.
  - now rewrite Ha.
  - rewrite (H b (or_introl eq_refl)). apply IH; [|assumption].
    intros x Hx. apply H. now right.
Qed.

Lemma in_int64_int64 (z : Z) : in_int64 (int64 z).
Proof.
  unfold in_int64, int64.
  pose proof (Z.mod_pos_bound (z + 2 ^ 63) (2 ^ 64) ltac:(lia)). lia.
Qed.

Lemma provider_ResourceId_eta (p : provider.ResourceId) :
  {| provider.StorageId := provider.StorageId p;
     provider.OpaqueId := provider.OpaqueId p |} = p.
Proof. now destruct p. Qed.

Section Creating.
Context {E : Externals}.

(* What a successful creation leaves: one more row, at the end. *)
Lemma CreatePublicShare_inv (c : config) (now : Time) (db db' : Table)
      (tkn : string) (lastID : Z) (u : user.User) (rInfo : provider.ResourceInfo)
      (g : link.Grant) (d : string) (i : bool) (s : link.PublicShare) :
  CreatePublicShare c now db tkn lastID u rInfo g d i = (Ok s, db') ->
  exists row,
    db' = db ++ [row]
    /\ share_type row = publicShareType
    /\ token row = Some tkn
    /\ orphan row = None
    /\ expiration row = grant_expiration g
    /\ uid_owner row = Some (conversions.FormatUserID (provider.Owner rInfo))
    /\ uid_initiator row = Some (conversions.FormatUserID (user.Id u))
    /\ (if String.eqb (link.Password g) "" then share_with row = None
        else share_with row
             = Some (String.append "1|"
                       (fst (bcrypt_GenerateFromPassword (link.Password g)
                               (SharePasswordHashCost c)))) /\
             snd (bcrypt_GenerateFromPassword (link.Password g)
                    (SharePasswordHashCost c)) = None)
    /\ link.Token s = tkn
    /\ link.PasswordProtected s = negb (String.eqb (link.Password g) "")
    /\ same_share s (conversions.ConvertToCS3PublicShare (scan_keep_token tkn row)).
Proof.
  unfold CreatePublicShare.
  destruct (link.GrantPermissions g) as [perms|]; [|discriminate].
  unfold hashPassword.
  destruct (String.eqb (link.Password g) "") eqn:Hpw; cbn [negb].
  - intros H. inversion H; subst. eexists. split; [reflexivity|].
    cbn. unfold grant_expiration.
    repeat split; try reflexivity;
      try (cbn; now destruct (provider.Id rInfo)).
    destruct (link.GrantExpiration g) as [e|]; [|reflexivity].
    now destruct (typespb.Seconds e =? 0).
  - destruct (bcrypt_GenerateFromPassword _ _) as [bytes [e|]]; [discriminate|].
    intros H. inversion H; subst. eexists. split; [reflexivity|].
    cbn. unfold grant_expiration.
    repeat split; try reflexivity;
      try (cbn; now destruct (provider.Id rInfo)).
    destruct (link.GrantExpiration g) as [e|]; [|reflexivity].
    now destruct (typespb.Seconds e =? 0).
Qed.

Lemma live_row_not_expired (now : Time) (tkn : string) (row : Row) (g : link.Grant) :
  expiration row = grant_expiration g ->
  live_at now (grant_expiration g) ->
  expired now (conversions.ConvertToCS3PublicShare (scan_keep_token tkn row)) = false.
Proof.
  intros He Hl.
  assert (Hwf : wf_row row).
  { unfold wf_row. rewrite He. unfold grant_expiration.
    destruct (link.GrantExpiration g) as [e|]; [|exact I].
    destruct (typespb.Seconds e =? 0); [exact I|apply in_int64_int64]. }
  rewrite (expired_scan_keep_token now tkn row Hwf).
  unfold row_expired. rewrite He. unfold live_at in Hl.
  destruct (grant_expiration g); [|reflexivity].
  apply Z.ltb_ge. exact Hl.
Qed.

End Creating.

(** X7. A share created under a password is opened by that password and by
    no other: with a hashing library that keeps bcrypt's contract, after a
    successful [CreatePublicShare] with a non-empty password and a fresh
    token, [GetPublicShareByToken] returns the password-protected share for
    the password, and InvalidCredentials for any other password, as long as
    the share has not expired. *)
Theorem created_share_opens_with_its_password
        {E : Externals} (Hbcrypt : bcrypt_contract E)
        (c : config) (now now' : Time) (db db' : Table) (tkn : string) (lastID : Z)
        (u : user.User) (rInfo : provider.ResourceInfo) (g : link.Grant)
        (d : string) (i : bool) (s : link.PublicShare)
        (Hcreated : CreatePublicShare c now db tkn lastID u rInfo g d i = (Ok s, db'))
        (Hpw : link.Password g <> "")
        (Hfresh : forall r, In r db -> GetPublicShareByToken_where tkn r = false)
        (Hlive : live_at now' (grant_expiration g)) :
  (exists s',
      GetPublicShareByToken c now' db' tkn
        {| link.GetPassword := link.Password g; link.GetSignature := None |} false
      = (Ok s', db')
      /\ link.PasswordProtected s' = true /\ same_share s s')
  /\ (forall other,
         other <> link.Password g ->
         GetPublicShareByToken c now' db' tkn
           {| link.GetPassword := other; link.GetSignature := None |} false
         = (Error InvalidCredentials, db')).
Proof.
  destruct (CreatePublicShare_inv _ _ _ _ _ _ _ _ _ _ _ _ Hcreated)
    as [row [Hdb [Hty [Htok [_ [Hexp [_ [_ [Hsw [_ [Hprot Hsame]]]]]]]]]]].
  apply String.eqb_neq in Hpw. rewrite Hpw in Hsw, Hprot. destruct Hsw as [Hsw Hgen].
  set (bytes := fst (bcrypt_GenerateFromPassword (link.Password g)
                       (SharePasswordHashCost c))) in *.
  assert (Hgen' : bcrypt_GenerateFromPassword (link.Password g) (SharePasswordHashCost c)
                  = (bytes, None)).
  { subst bytes. destruct (bcrypt_GenerateFromPassword _ _) as [b e]. cbn in *.
    now subst e. }
  assert (Hq : QueryRow (GetPublicShareByToken_where tkn) db' = Some row).
  { subst db'. unfold QueryRow. apply find_app_last; [assumption|].
    unfold GetPublicShareByToken_where. rewrite Hty, Htok. cbn.
    now rewrite String.eqb_refl. }
  assert (Hstep : forall auth,
             GetPublicShareByToken c now' db' tkn auth false =
             if negb (authenticate now'
                        (conversions.ConvertToCS3PublicShare (scan_keep_token tkn row))
                        (String.append "1|" bytes) auth)
             then (Error InvalidCredentials, db')
             else (Ok (conversions.ConvertToCS3PublicShare (scan_keep_token tkn row)),
                   db')).
  { intros auth. unfold GetPublicShareByToken. rewrite Hq.
    rewrite (live_row_not_expired now' tkn row g Hexp Hlive).
    cbn [scan_keep_token scan conversions.ShareWith]. rewrite Hsw.
    reflexivity. }
  split.
  - eexists. rewrite Hstep. unfold authenticate. cbn [link.GetPassword].
    rewrite Hpw. cbn [negb]. unfold checkPasswordHash.
    rewrite TrimPrefix_version_tag.
    rewrite (bcrypt_accepts E Hbcrypt _ _ _ Hgen'). cbn [negb].
    split; [reflexivity|]. split; [|exact Hsame].
    cbn. now rewrite Hsw.
  - intros other Hother. rewrite Hstep. unfold authenticate.
    cbn [link.GetPassword link.GetSignature].
    destruct (String.eqb other ""); cbn [negb]; [reflexivity|].
    unfold checkPasswordHash. rewrite TrimPrefix_version_tag.
    pose proof (bcrypt_rejects E Hbcrypt _ _ _ other Hgen' Hother) as Hr.
    destruct (bcrypt_CompareHashAndPassword bytes other); [reflexivity|now elim Hr].
Qed.

Lemma created_share_opens_with_its_password_witness :
  let created :=
    CreatePublicShare (E := ex_externals) ex_config ex_morning [ex_live_row]
      "tok" 3 ex_alice ex_rinfo (ex_grant_password "p@ss") "" false in
  is_ok (fst created) = true
  /\ is_ok (fst (GetPublicShareByToken (E := ex_externals) ex_config ex_evening
                   (snd created) "tok" (ex_password "p@ss") false)) = true
  /\ GetPublicShareByToken (E := ex_externals) ex_config ex_evening
       (snd created) "tok" (ex_password "wrong") false
     = (Error InvalidCredentials, snd created).
Proof.
  cbv zeta.
  destruct (created_share_opens_with_its_password (E := ex_externals)
              ex_bcrypt_contract ex_config ex_morning ex_evening [ex_live_row]
              _ "tok" 3 ex_alice ex_rinfo (ex_grant_password "p@ss") "" false _
              eq_refl ltac:(discriminate)
              ltac:(intros r [<-|[]]; reflexivity) I) as [[s' [H1 _]] H2].
  split; [reflexivity|]. split.
  - exact (f_equal (fun x => is_ok (fst x)) H1).
  - apply H2. discriminate.
Defined.

(** X8. Creation and lookup agree: after a successful [CreatePublicShare]
    with a fresh token, [GetPublicShare] by that token returns, to any
    caller and as long as the share has not expired, a share with the id,
    token, resource, permissions, times, protection flag, display name,
    quicklink flag and description that the creation returned. *)
Theorem created_share_is_found_by_token
        {E : Externals}
        (c : config) (now now' : Time) (db db' : Table) (tkn : string) (lastID : Z)
        (u caller : user.User) (rInfo : provider.ResourceInfo) (g : link.Grant)
        (d : string) (i : bool) (s : link.PublicShare)
        (Hcreated : CreatePublicShare c now db tkn lastID u rInfo g d i = (Ok s, db'))
        (Htkn : tkn <> "")
        (Hfresh : forall r, In r db -> getByToken_where tkn r = false)
        (Hlive : live_at now' (grant_expiration g)) :
  exists s',
    GetPublicShare c now' db' caller (link.RefToken tkn) false = (Ok s', db')
    /\ same_share s s'.
Proof.
  destruct (CreatePublicShare_inv _ _ _ _ _ _ _ _ _ _ _ _ Hcreated)
    as [row [Hdb [Hty [Htok [Horph [Hexp [_ [_ [_ [_ [_ Hsame]]]]]]]]]]].
  assert (Hq : QueryRow (getByToken_where tkn) db' = Some row).
  { subst db'. unfold QueryRow. apply find_app_last; [assumption|].
    unfold getByToken_where, orphan_unset. rewrite Hty, Htok, Horph. cbn.
    now rewrite String.eqb_refl. }
  exists (conversions.ConvertToCS3PublicShare (scan_keep_token tkn row)).
  split; [|exact Hsame].
  unfold GetPublicShare. apply String.eqb_neq in Htkn. rewrite Htkn. cbn [negb].
  unfold getByToken. rewrite Hq.
  rewrite (live_row_not_expired now' tkn row g Hexp Hlive).
  now rewrite andb_false_r.
Qed.

Lemma created_share_is_found_by_token_witness :
  let created :=
    CreatePublicShare (E := ex_externals) ex_config ex_morning [ex_live_row]
      "tok" 3 ex_alice ex_rinfo (ex_grant_password "p@ss") "" false in
  exists s s',
    fst created = Ok s
    /\ GetPublicShare (E := ex_externals) ex_config ex_evening (snd created)
         ex_bob (link.RefToken "tok") false = (Ok s', snd created)
    /\ same_share s s'.
Proof.
  cbv zeta.
  destruct (created_share_is_found_by_token (E := ex_externals)
              ex_config ex_morning ex_evening [ex_live_row]
              _ "tok" 3 ex_alice ex_bob ex_rinfo (ex_grant_password "p@ss") "" false _
              eq_refl ltac:(discriminate)
              ltac:(intros r [<-|[]]; reflexivity) I) as [s' [H1 H2]].
  eexists. exists s'. split; [reflexivity|]. split; assumption.
Defined.

(** X9. A share without a password needs no credentials: when the row
    [GetPublicShareByToken] finds is not expired and its password hash is
    empty or unset, the share is returned for every authentication attempt,
    and no signature is attached even if one is asked for. *)
Theorem unprotected_share_needs_no_credentials
        {E : Externals} (c : config) (now : Time) (db : Table) (tkn : string)
        (auth : link.PublicShareAuthentication) (sign : bool) (r : Row)
        (Hrow : QueryRow (GetPublicShareByToken_where tkn) db = Some r)
        (Hwf : wf_row r)
        (Hlive : row_expired now r = false)
        (Hopen : coalesce (share_with r) = "") :
  GetPublicShareByToken c now db tkn auth sign
  = (Ok (conversions.ConvertToCS3PublicShare (scan_keep_token tkn r)), db)
  /\ link.Sig (conversions.ConvertToCS3PublicShare (scan_keep_token tkn r)) = None.
Proof.
  split; [|reflexivity].
  unfold GetPublicShareByToken. rewrite Hrow.
  rewrite (expired_scan_keep_token now tkn r Hwf), Hlive.
  cbn [scan_keep_token scan conversions.ShareWith]. now rewrite Hopen.
Qed.

Lemma unprotected_share_needs_no_credentials_witness :
  GetPublicShareByToken (E := ex_externals) ex_config ex_evening ex_expiry_db
    "tok-live" (ex_password "anything") true
  = (Ok (conversions.ConvertToCS3PublicShare (scan ex_live_row)), ex_expiry_db).
Proof.
  destruct (unprotected_share_needs_no_credentials (E := ex_externals)
              ex_config ex_evening ex_expiry_db "tok-live" (ex_password "anything")
              true ex_live_row eq_refl I eq_refl eq_refl) as [H _].
  exact H.
Defined.

(** ** Listing *)

Lemma col_eq_coalesce (col : option string) (v : string) :
  col_eq col v = true -> coalesce col = v.
Proof.
  destruct col as [s|]; cbn; [|discriminate]. apply String.eqb_eq.
Qed.

Section Listing.
Context {E : Externals}.

Lemma ListPublicShares_loop_rows (c : config) (now : Time) (sign : bool) :
  forall rows acc db shares db',
    ListPublicShares_loop c now sign rows acc db = (Ok shares, db') ->
    forall s, In s shares ->
      In s acc
      \/ exists r, In r rows
                   /\ unsigned s = conversions.ConvertToCS3PublicShare (scan r)
                   /\ expired now (conversions.ConvertToCS3PublicShare (scan r)) = false.
Proof.
  induction rows as [|r rows IH]; intros acc db shares db' H s Hs;
    cbn [ListPublicShares_loop] in H.
  - inversion H; subst. now left.
  - destruct (expired now _) eqn:Hexp.
    + destruct (IH _ _ _ _ H s Hs) as [Ha|[r' [Hr' Hrest]]]; [now left|].
      right. exists r'. split; [now right|assumption].
    + destruct (link.PasswordProtected _ && sign).
      * destruct (AddSignature now _ _) as [s1|e] eqn:HA; [|discriminate].
        destruct (IH _ _ _ _ H s Hs) as [Ha|[r' [Hr' Hrest]]].
        -- apply in_app_or in Ha as [Ha|[<-|[]]]; [now left|].
           right. exists r. split; [now left|]. split; [|assumption].
           now rewrite (AddSignature_unsigned _ _ _ _ HA).
        -- right. exists r'. split; [now right|assumption].
      * destruct (IH _ _ _ _ H s Hs) as [Ha|[r' [Hr' Hrest]]].
        -- apply in_app_or in Ha as [Ha|[<-|[]]]; [now left|].
           right. exists r. split; [now left|]. split; [reflexivity|assumption].
        -- right. exists r'. split; [now right|assumption].
Qed.

Lemma ListPublicShares_rows (c : config) (now : Time) (db db' : Table)
      (u : user.User) (filters : list link.Filter) (sign : bool)
      (shares : list link.PublicShare) :
  ListPublicShares c now db u filters sign = (Ok shares, db') ->
  exists q,
    uidOwnerFilters u filters = Ok q /\
    forall s, In s shares ->
      exists r, In r db
                /\ ListPublicShares_where filters q r = true
                /\ unsigned s = conversions.ConvertToCS3PublicShare (scan r)
                /\ expired now (conversions.ConvertToCS3PublicShare (scan r)) = false.
Proof.
  unfold ListPublicShares. destruct (uidOwnerFilters u filters) as [q|e]; [|discriminate].
  intros H. exists q. split; [reflexivity|]. intros s Hs.
  destruct (ListPublicShares_loop_rows _ _ _ _ _ _ _ _ H s Hs) as [[]|[r [Hr Hrest]]].
  unfold Query in Hr. apply filter_In in Hr as [Hin Hw].
  exists r. split; [assumption|]. split; assumption.
Qed.

End Listing.

(** X10. A caller who administers none of the filtered projects is listed
    only shares of their own: when no resource filter of the call makes the
    caller a project admin, every share [ListPublicShares] returns has the
    caller as owner or as creator. *)
Theorem listing_returns_own_shares_only
        {E : Externals} (c : config) (now : Time) (db db' : Table) (u : user.User)
        (filters : list link.Filter) (sign : bool) (shares : list link.PublicShare)
        (Hlist : ListPublicShares c now db u filters sign = (Ok shares, db'))
        (Hno : existsb (isProjectAdmin u) filters = false) :
  forall s, In s shares ->
    user.OpaqueId (link.Owner s) = conversions.FormatUserID (user.Id u)
    \/ user.OpaqueId (link.Creator s) = conversions.FormatUserID (user.Id u).
Proof.
  intros s Hs.
  destruct (ListPublicShares_rows _ _ _ _ _ _ _ _ Hlist) as [q [Hq Hrows]].
  destruct (Hrows s Hs) as [r [_ [Hw [Hconv _]]]].
  unfold uidOwnerFilters in Hq. rewrite Hno in Hq.
  destruct GetGatewayServiceClient; [discriminate|]. inversion Hq; subst q.
  unfold ListPublicShares_where in Hw. apply andb_prop in Hw as [_ Hw].
  cbn [uid_clause] in Hw. unfold owner_or_initiator in Hw.
  change (link.Owner s) with (link.Owner (unsigned s)).
  change (link.Creator s) with (link.Creator (unsigned s)).
  rewrite Hconv. cbn.
  apply orb_prop in Hw as [Hw|Hw]; [left|right]; now apply col_eq_coalesce.
Qed.

Lemma listing_returns_own_shares_only_witness :
  ListPublicShares (E := ex_externals) ex_config ex_evening
    (ex_carol_on_beta :: ex_expiry_db) ex_alice [] false
  = (Ok [conversions.ConvertToCS3PublicShare (scan ex_live_row)],
     ex_carol_on_beta :: ex_expiry_db)
  /\ (user.OpaqueId (link.Owner (conversions.ConvertToCS3PublicShare (scan ex_live_row)))
      = "alice"
      \/ user.OpaqueId
           (link.Creator (conversions.ConvertToCS3PublicShare (scan ex_live_row)))
         = "alice").
Proof.
  split; [reflexivity|].
  apply (listing_returns_own_shares_only (E := ex_externals) ex_config ex_evening
           (ex_carol_on_beta :: ex_expiry_db) (ex_carol_on_beta :: ex_expiry_db)
           ex_alice [] false
           [conversions.ConvertToCS3PublicShare (scan ex_live_row)] eq_refl eq_refl
           _ (or_introl eq_refl)).
Defined.

(** X11. What a listing returns: every share [ListPublicShares] returns is
    built from a row of the table that is a public link, not internal, not
    orphaned and not expired, and that matches one filter of each kind the
    call carries: its resource is one of the filtered resources, its owner
    one of the filtered owners, its creator one of the filtered creators. *)
Theorem listing_respects_filters
        {E : Externals} (c : config) (now : Time) (db db' : Table) (u : user.User)
        (filters : list link.Filter) (sign : bool) (shares : list link.PublicShare)
        (Hlist : ListPublicShares c now db u filters sign = (Ok shares, db')) :
  forall s, In s shares ->
    (exists r, In r db
               /\ unsigned s = conversions.ConvertToCS3PublicShare (scan r)
               /\ share_type r = publicShareType /\ internal r = false
               /\ orphan r <> Some true
               /\ expired now s = false)
    /\ (resourceParams filters <> [] -> In (link.ResourceId s) (resourceParams filters))
    /\ (ownerParams filters <> [] ->
        In (user.OpaqueId (link.Owner s)) (ownerParams filters))
    /\ (creatorParams filters <> [] ->
        In (user.OpaqueId (link.Creator s)) (creatorParams filters)).
Proof.
  intros s Hs.
  destruct (ListPublicShares_rows _ _ _ _ _ _ _ _ Hlist) as [q [Hq Hrows]].
  destruct (Hrows s Hs) as [r [Hin [Hw [Hconv Hexp]]]].
  unfold ListPublicShares_where in Hw.
  apply andb_prop in Hw as [Hw _].
  apply andb_prop in Hw as [Hw Hcre].
  apply andb_prop in Hw as [Hw Hown].
  apply andb_prop in Hw as [Hw Hres].
  apply andb_prop in Hw as [Hw Hint].
  apply andb_prop in Hw as [Horph Hty].
  assert (Hfields : link.ResourceId s
                    = {| provider.StorageId := coalesce (fileid_prefix r);
                         provider.OpaqueId := coalesce (item_source r) |}
                    /\ user.OpaqueId (link.Owner s) = coalesce (uid_owner r)
                    /\ user.OpaqueId (link.Creator s) = coalesce (uid_initiator r)
                    /\ expired now s = false).
  { change (link.ResourceId s) with (link.ResourceId (unsigned s)).
    change (link.Owner s) with (link.Owner (unsigned s)).
    change (link.Creator s) with (link.Creator (unsigned s)).
    change (expired now s) with (expired now (unsigned s)).
    rewrite Hconv. repeat split. exact Hexp. }
  destruct Hfields as [Hrid [Ho [Hc Hlive]]].
  split; [|split; [|split]].
  - exists r. repeat split; try assumption.
    + now apply Z.eqb_eq.
    + now apply negb_true_iff.
    + intros Ho'. unfold orphan_unset in Horph. rewrite Ho' in Horph. discriminate.
  - intros Hne. unfold resource_clause in Hres.
    destruct (resourceParams filters) as [|p ps] eqn:Hps; [now elim Hne|].
    apply existsb_exists in Hres as [p' [Hp' Hm]].
    apply andb_prop in Hm as [H1 H2].
    apply col_eq_coalesce in H1. apply col_eq_coalesce in H2.
    rewrite Hrid, H1, H2, provider_ResourceId_eta. exact Hp'.
  - intros Hne. unfold owner_clause in Hown.
    destruct (ownerParams filters) as [|p ps] eqn:Hps; [now elim Hne|].
    apply existsb_exists in Hown as [p' [Hp' Hm]].
    apply col_eq_coalesce in Hm. now rewrite Ho, Hm.
  - intros Hne. unfold creator_clause in Hcre.
    destruct (creatorParams filters) as [|p ps] eqn:Hps; [now elim Hne|].
    apply existsb_exists in Hcre as [p' [Hp' Hm]].
    apply col_eq_coalesce in Hm. now rewrite Hc, Hm.
Qed.

Lemma listing_respects_filters_witness :
  let filters := [link.TYPE_OWNER (user.Id ex_carol)] in
  ListPublicShares (E := ex_externals) ex_config ex_evening
    (ex_carol_on_beta :: ex_expiry_db) ex_carol filters false
  = (Ok [conversions.ConvertToCS3PublicShare (scan ex_carol_on_beta)],
     ex_carol_on_beta :: ex_expiry_db)
  /\ In (user.OpaqueId
           (link.Owner (conversions.ConvertToCS3PublicShare (scan ex_carol_on_beta))))
        (ownerParams filters).
Proof.
  cbv zeta. split; [reflexivity|].
  destruct (listing_respects_filters (E := ex_externals) ex_config ex_evening
              (ex_carol_on_beta :: ex_expiry_db) (ex_carol_on_beta :: ex_expiry_db)
              ex_carol [link.TYPE_OWNER (user.Id ex_carol)] false
              [conversions.ConvertToCS3PublicShare (scan ex_carol_on_beta)]
              eq_refl _ (or_introl eq_refl)) as [_ [_ [H _]]].
  apply H. discriminate.
Defined.

(** ** Project admins *)

Lemma append_empty_r (s : string) : String.append s "" = s.
Proof. induction s as [|ch s IH]; cbn; [reflexivity|now rewrite IH]. Qed.

Lemma append_snoc (cur : string) (ch : ascii) (s : string) :
  String.append (String.append cur (String ch "")) s = String.append cur (String ch s).
Proof. induction cur as [|c0 cur IH]; cbn; [reflexivity|now rewrite IH]. Qed.

Lemma append_assoc (x y z : string) :
  String.append (String.append x y) z = String.append x (String.append y z).
Proof. induction x as [|ch x IH]; cbn; [reflexivity|now rewrite IH]. Qed.

Lemma SplitN_aux_none_left (s cur : string) :
  SplitN_aux "/"%char s 0 cur = [String.append cur s].
Proof. destruct s; cbn; [now rewrite append_empty_r|reflexivity]. Qed.

Lemma SplitN_aux_last (comp : string) :
  slash_free comp = true ->
  forall n cur, SplitN_aux "/"%char comp n cur = [String.append cur comp].
Proof.
  induction comp as [|ch comp IH]; intros Hf n cur.
  - cbn. now rewrite append_empty_r.
  - cbn in Hf. apply andb_prop in Hf as [Hch Hf]. apply negb_true_iff in Hch.
    destruct n as [|n]; [apply SplitN_aux_none_left|].
    cbn [SplitN_aux]. rewrite Hch, (IH Hf). now rewrite append_snoc.
Qed.

Lemma SplitN_aux_component (comp rest : string) :
  slash_free comp = true ->
  forall n cur,
    SplitN_aux "/"%char (String.append comp (String "/"%char rest)) (S n) cur
    = String.append cur comp :: SplitN_aux "/"%char rest n "".
Proof.
  induction comp as [|ch comp IH]; intros Hf n cur.
  - cbn. now rewrite append_empty_r.
  - cbn in Hf. apply andb_prop in Hf as [Hch Hf]. apply negb_true_iff in Hch.
    cbn [String.append SplitN_aux]. rewrite Hch, (IH Hf). now rewrite append_snoc.
Qed.

Lemma SplitN_aux_length (s : string) :
  forall n cur, (List.length (SplitN_aux "/"%char s n cur) <= S (count_slash s))%nat.
Proof.
  induction s as [|ch s IH]; intros n cur; cbn; [lia|].
  destruct n as [|n]; [cbn; destruct (Ascii.eqb ch "/"); lia|].
  destruct (Ascii.eqb ch "/"); cbn.
  - specialize (IH n ""). lia.
  - apply IH.
Qed.

(** X12. The project name is the fifth component of the path: for a path
    /a/b/c/name, with or without further components, the admin group is
    cernbox-project-name-admins; a path with fewer than four slashes names no
    group, so it never grants the unrestricted listing. *)
Theorem adminGroup_of_project_path (a b c name : string)
        (Ha : slash_free a = true) (Hb : slash_free b = true)
        (Hc : slash_free c = true) (Hname : slash_free name = true) :
  adminGroup (abs_path [a; b; c; name])
  = Some (String.append "cernbox-project-" (String.append name "-admins"))
  /\ (forall rest,
         adminGroup (String.append (abs_path [a; b; c; name]) (String "/"%char rest))
         = Some (String.append "cernbox-project-" (String.append name "-admins")))
  /\ (forall path, (count_slash path < 4)%nat -> adminGroup path = None).
Proof.
  assert (Hsplit : forall tail,
             SplitN_aux "/"%char
               (String "/"%char
                  (String.append a (String "/"%char
                     (String.append b (String "/"%char
                        (String.append c (String "/"%char tail))))))) 5 ""
             = "" :: a :: b :: c :: SplitN_aux "/"%char tail 1 "").
  { intros tail. cbn [SplitN_aux Ascii.eqb Bool.eqb].
    rewrite (SplitN_aux_component a _ Ha), (SplitN_aux_component b _ Hb),
      (SplitN_aux_component c _ Hc). reflexivity. }
  split; [|split].
  - unfold adminGroup, SplitN, abs_path. cbn [fold_right String.append].
    rewrite Hsplit. rewrite append_empty_r, (SplitN_aux_last name Hname). reflexivity.
  - intros rest. unfold adminGroup, SplitN, abs_path. cbn [fold_right String.append].
    rewrite append_empty_r.
    assert (Heq : String.append
                    (String.append a (String "/" (String.append b
                       (String "/" (String.append c (String "/" name)))))) 
                    (String "/" rest)
                  = String.append a (String "/" (String.append b
                      (String "/" (String.append c
                         (String "/" (String.append name (String "/" rest)))))))).
    { repeat (rewrite ?append_assoc; cbn [String.append]). reflexivity. }
    rewrite Heq.
    rewrite Hsplit, (SplitN_aux_component name rest Hname), SplitN_aux_none_left.
    reflexivity.
  - intros path Hcount. unfold adminGroup, SplitN.
    pose proof (SplitN_aux_length path 5 "") as Hlen.
    destruct (Z.ltb_spec (Z.of_nat (List.length (SplitN_aux "/"%char path 5 ""))) 5);
      [reflexivity|lia].
Qed.

Lemma adminGroup_of_project_path_witness :
  adminGroup "/eos/project/c/cernbox" = Some "cernbox-project-cernbox-admins"
  /\ adminGroup "/eos/project/c/cernbox/docs/a.txt"
     = Some "cernbox-project-cernbox-admins"
  /\ adminGroup "/eos/project/c" = None.
Proof.
  destruct (adminGroup_of_project_path "eos" "project" "c" "cernbox"
              eq_refl eq_refl eq_refl eq_refl) as [H1 [H2 H3]].
  split; [exact H1|]. split.
  - exact (H2 "docs/a.txt").
  - apply H3. cbn. lia.
Defined.

(** X13. When the ownership clause is dropped: [uidOwnerFilters] returns
    the unrestricted clause exactly when the gateway client is available and
    some resource filter names a storage whose id starts with newproject,
    whose Stat succeeds with an OK status, and whose path names an admin
    group the caller is a member of; in every other case with a gateway
    client it returns the clause on the caller's own id. *)
Theorem uidOwnerFilters_unrestricted_iff
        {E : Externals} (u : user.User) (filters : list link.Filter) :
  (uidOwnerFilters u filters = Ok Unrestricted <->
   GetGatewayServiceClient = None /\
   exists rid res g,
     In (link.TYPE_RESOURCE_ID rid) filters
     /\ HasPrefix (provider.StorageId rid) projectInstancesPrefix = true
     /\ Stat rid = Ok res /\ provider.StatusOK res = true
     /\ adminGroup (provider.Path res) = Some g
     /\ In g (user.Groups u))
  /\ (GetGatewayServiceClient = None ->
      uidOwnerFilters u filters <> Ok Unrestricted ->
      uidOwnerFilters u filters
      = Ok (OwnerOrInitiator (conversions.FormatUserID (user.Id u)))).
Proof.
  assert (Hadmin : forall f,
             isProjectAdmin u f = true <->
             exists rid res g,
               f = link.TYPE_RESOURCE_ID rid
               /\ HasPrefix (provider.StorageId rid) projectInstancesPrefix = true
               /\ Stat rid = Ok res /\ provider.StatusOK res = true
               /\ adminGroup (provider.Path res) = Some g
               /\ In g (user.Groups u)).
  { intros f. split.
    - destruct f as [rid| | |]; cbn; try discriminate.
      destruct (HasPrefix _ _) eqn:Hp; [|discriminate].
      destruct (Stat rid) as [res|e] eqn:Hs; [|discriminate].
      destruct (provider.StatusOK res) eqn:Hok; [|discriminate]. cbn [negb].
      destruct (adminGroup _) as [g|] eqn:Hg; [|discriminate].
      intros Hex. apply existsb_exists in Hex as [g' [Hin Heq]].
      apply String.eqb_eq in Heq. subst g'.
      exists rid, res, g. repeat split; assumption.
    - intros [rid [res [g [-> [Hp [Hs [Hok [Hg Hin]]]]]]]]. cbn.
      rewrite Hp, Hs, Hok, Hg. cbn [negb].
      apply existsb_exists. exists g. split; [assumption|apply String.eqb_refl]. }
  split.
  - unfold uidOwnerFilters. split.
    + destruct GetGatewayServiceClient; [discriminate|].
      destruct (existsb _ filters) eqn:Hex; [|discriminate]. intros _.
      split; [reflexivity|].
      apply existsb_exists in Hex as [f [Hin Hf]].
      apply Hadmin in Hf as [rid [res [g [-> H]]]].
      exists rid, res, g. split; assumption.
    + intros [-> [rid [res [g [Hin H]]]]].
      replace (existsb (isProjectAdmin u) filters) with true; [reflexivity|].
      symmetry. apply existsb_exists. exists (link.TYPE_RESOURCE_ID rid).
      split; [assumption|]. apply Hadmin. exists rid, res, g. now split.
  - unfold uidOwnerFilters. intros ->.
    destruct (existsb _ filters); [intros H; now elim H|reflexivity].
Qed.

(** ** Password hashes and defaults *)

(** X14. The version tag is optional on verification: a stored hash that
    does not start with the tag verifies exactly as the same hash with the
    tag in front. *)
Theorem checkPasswordHash_untagged
        {E : Externals} (password h : string)
        (Hbare : HasPrefix h "1|" = false) :
  checkPasswordHash password (String.append "1|" h) = checkPasswordHash password h.
Proof.
  unfold checkPasswordHash. rewrite TrimPrefix_version_tag.
  unfold TrimPrefix. now rewrite Hbare.
Qed.

Lemma checkPasswordHash_untagged_witness :
  checkPasswordHash (E := ex_externals) "p@ss" "1|$2a$p@ss"
  = checkPasswordHash (E := ex_externals) "p@ss" "$2a$p@ss".
Proof.
  apply (checkPasswordHash_untagged (E := ex_externals) "p@ss" "$2a$p@ss" eq_refl).
Defined.


(** * URL prefixes and the tracing middleware *)

Lemma TrimRight_slash_idem (s : string) :
  TrimRight_slash (TrimRight_slash s) = TrimRight_slash s.
Proof.
  induction s as [|ch s IH]; [reflexivity|]. cbn.
  destruct (TrimRight_slash s) as [|ch' t] eqn:Ht.
  - destruct (Ascii.eqb ch "/") eqn:Hch; [reflexivity|]. cbn. now rewrite Hch.
  - cbn [TrimRight_slash] in *. rewrite IH. reflexivity.
Qed.

Lemma TrimRight_slash_no_trailing (s x : string) :
  TrimRight_slash s <> String.append x "/".
Proof.
  revert x. induction s as [|ch s IH]; intros x; cbn.
  - destruct x; discriminate.
  - destruct (TrimRight_slash s) as [|ch' t] eqn:Ht.
    + destruct (Ascii.eqb ch "/") eqn:Hch; [destruct x; discriminate|].
      destruct x as [|c0 x]; cbn.
      * intros H. inversion H; subst. discriminate.
      * destruct x; discriminate.
    + destruct x as [|c0 x]; cbn; [discriminate|].
      intros H. inversion H; subst. now apply (IH x).
Qed.

Lemma TrimRight_slash_head (ch : ascii) (s : string) :
  TrimRight_slash (String ch s) = EmptyString
  \/ exists t, TrimRight_slash (String ch s) = String ch t.
Proof.
  cbn. destruct (TrimRight_slash s) as [|ch' t].
  - destruct (Ascii.eqb ch "/"); [now left|right; now eexists].
  - right. now eexists.
Qed.

(** X16. The shape of a cleaned URL: [cleanURL] returns the empty string or
    a string that starts with a slash, never one that ends with a slash, and
    cleaning a cleaned URL changes nothing. *)
Theorem cleanURL_shape (url : string) :
  (cleanURL url = "" \/ exists rest, cleanURL url = String "/"%char rest)
  /\ (forall x, cleanURL url <> String.append x "/")
  /\ cleanURL (cleanURL url) = cleanURL url.
Proof.
  assert (Hhead : cleanURL url = "" \/ exists rest, cleanURL url = String "/"%char rest).
  { unfold cleanURL. destruct url as [|ch url]; [now left|].
    destruct (Ascii.eqb_spec ch "/"%char) as [->|Hne];
      apply TrimRight_slash_head. }
  split; [exact Hhead|]. split.
  - intros x. unfold cleanURL. destruct url as [|ch url].
    + destruct x; discriminate.
    + apply TrimRight_slash_no_trailing.
  - destruct Hhead as [->|[rest Hrest]]; [reflexivity|].
    rewrite Hrest. unfold cleanURL. cbn [Ascii.eqb Bool.eqb].
    rewrite <- Hrest. unfold cleanURL. destruct url as [|ch url]; [discriminate|].
    apply TrimRight_slash_idem.
Qed.

Lemma Split_nonempty (s : string) : Split s <> [].
Proof.
  induction s as [|ch s IH]; cbn; [discriminate|].
  destruct (Ascii.eqb ch "/"); [discriminate|].
  destruct (Split s); discriminate.
Qed.

Lemma Split_app (a b : string) :
  Split (String.append a (String "/"%char b)) = Split a ++ Split b.
Proof.
  induction a as [|ch a IH]; [reflexivity|]. cbn.
  destruct (Ascii.eqb ch "/"); [now rewrite IH|].
  rewrite IH. pose proof (Split_nonempty a) as Hne.
  destruct (Split a) as [|p ps]; [now elim Hne|reflexivity].
Qed.

Lemma Join_cons (p : string) (ps : list string) :
  ps <> [] -> Join (p :: ps) = String.append p (String "/"%char (Join ps)).
Proof. destruct ps; [intros H; now elim H|reflexivity]. Qed.

Lemma Join_Split (s : string) : Join (Split s) = s.
Proof.
  induction s as [|ch s IH]; [reflexivity|]. cbn [Split].
  pose proof (Split_nonempty s) as Hne.
  destruct (Ascii.eqb_spec ch "/"%char) as [->|Hch].
  - rewrite Join_cons by assumption. cbn. now rewrite IH.
  - destruct (Split s) as [|p ps] eqn:Hs; [now elim Hne|].
    destruct ps as [|p' ps].
    + cbn in *. now rewrite IH.
    + change (Join (String ch p :: p' :: ps))
        with (String ch (String.append p (String "/"%char (Join (p' :: ps))))).
      change (Join (p :: p' :: ps))
        with (String.append p (String "/"%char (Join (p' :: ps)))) in IH.
      now rewrite IH.
Qed.

Lemma Join_app (ps qs : list string) :
  ps <> [] -> qs <> [] ->
  Join (ps ++ qs) = String.append (Join ps) (String "/"%char (Join qs)).
Proof.
  induction ps as [|p ps IH]; intros Hp Hq; [now elim Hp|].
  destruct ps as [|p' ps].
  - cbn [app]. now rewrite Join_cons.
  - change ((p :: p' :: ps) ++ qs) with (p :: ((p' :: ps) ++ qs)).
    rewrite Join_cons by discriminate.
    rewrite IH by (assumption || discriminate).
    rewrite (Join_cons p (p' :: ps)) by discriminate.
    rewrite append_assoc. reflexivity.
Qed.

Lemma parts_match_prefix (ps us : list string) :
  parts_match ps us = true <-> exists rest, us = ps ++ rest.
Proof.
  revert us. induction ps as [|p ps IH]; intros us; cbn.
  - split; [intros _; now exists us|reflexivity].
  - destruct us as [|u us].
    + split; [discriminate|]. intros [rest H]. discriminate.
    + destruct (String.eqb_spec p u) as [->|Hne].
      * rewrite IH. split; intros [rest H]; exists rest; [now rewrite H|].
        now inversion H.
      * split; [discriminate|]. intros [rest H]. inversion H. now elim Hne.
Qed.

Lemma UrlHasPrefix_parts (url prefix : string) :
  UrlHasPrefix url prefix = true <->
  exists rest, Split (cleanURL url) = Split (cleanURL prefix) ++ rest.
Proof.
  unfold UrlHasPrefix. cbv zeta.
  destruct (Nat.ltb_spec (List.length (Split (cleanURL url)))
                         (List.length (Split (cleanURL prefix)))) as [Hlt|Hge].
  - split; [discriminate|]. intros [rest H]. rewrite H, length_app in Hlt. lia.
  - apply parts_match_prefix.
Qed.

Lemma UrlHasPrefix_iff (url prefix : string) :
  UrlHasPrefix url prefix = true <->
  (cleanURL url = cleanURL prefix
   \/ exists rest,
       cleanURL url = String.append (cleanURL prefix) (String "/"%char rest)).
Proof.
  rewrite UrlHasPrefix_parts. split.
  - intros [rest H]. destruct rest as [|r rest].
    + left. rewrite app_nil_r in H.
      rewrite <- (Join_Split (cleanURL url)), H. apply Join_Split.
    + right. exists (Join (r :: rest)).
      rewrite <- (Join_Split (cleanURL url)), H.
      rewrite Join_app by (apply Split_nonempty || discriminate).
      now rewrite Join_Split.
  - intros [H|[rest H]].
    + exists []. now rewrite H, app_nil_r.
    + exists (Split rest). rewrite H. apply Split_app.
Qed.

(** X17. Prefixes are matched by whole path components: [UrlHasPrefix]
    holds exactly when the cleaned URL is the cleaned prefix or continues it
    with a slash, so /api is a prefix of /api/v0 and not of /apiv0. *)
Theorem UrlHasPrefix_by_components (url prefix : string) :
  UrlHasPrefix url prefix = true <->
  (cleanURL url = cleanURL prefix
   \/ exists rest,
       cleanURL url = String.append (cleanURL prefix) (String "/"%char rest)).
Proof. apply UrlHasPrefix_iff. Qed.

(** X18. [UrlHasPrefix] is a preorder with the root at the bottom: every
    URL has itself, the root / and the empty string as prefix, and a prefix
    of a prefix is a prefix. *)
Theorem UrlHasPrefix_preorder (url mid prefix : string) :
  UrlHasPrefix url url = true
  /\ UrlHasPrefix url "/" = true
  /\ UrlHasPrefix url "" = true
  /\ (UrlHasPrefix url mid = true -> UrlHasPrefix mid prefix = true ->
      UrlHasPrefix url prefix = true).
Proof.
  assert (Hroot : forall p, cleanURL p = "" -> UrlHasPrefix url p = true).
  { intros p Hp. apply UrlHasPrefix_iff. rewrite Hp.
    destruct (cleanURL_shape url) as [[H|[rest H]] _]; [now left|].
    right. exists rest. now rewrite H. }
  split; [apply UrlHasPrefix_iff; now left|].
  split; [now apply Hroot|]. split; [now apply Hroot|].
  rewrite !UrlHasPrefix_iff. intros [H1|[r1 H1]] [H2|[r2 H2]]; rewrite H1.
  - now left.
  - right. now exists r2.
  - right. exists r1. now rewrite H2.
  - right. exists (String.append r2 (String "/"%char r1)).
    rewrite H2. now rewrite append_assoc.
Qed.

Lemma substring_skip (p s : string) :
  String.substring (String.length p) (String.length (String.append p s) - String.length p)
                   (String.append p s) = s.
Proof.
  induction p as [|ch p IH]; cbn.
  - rewrite Nat.sub_0_r. apply substring_all.
  - exact IH.
Qed.

Lemma length_append (p s : string) :
  String.length (String.append p s) = (String.length p + String.length s)%nat.
Proof. induction p as [|ch p IH]; cbn; [reflexivity|now rewrite IH]. Qed.

(** X19. [GetSubURL] under its precondition: when the prefix is a prefix of
    the URL, the slice is in bounds, the cleaned URL is the cleaned prefix
    followed by the result, and the result is empty or starts with a
    slash. *)
Theorem GetSubURL_splits (url prefix : string)
        (Hpre : UrlHasPrefix url prefix = true) :
  exists sub,
    GetSubURL url prefix = Some sub
    /\ cleanURL url = String.append (cleanURL prefix) sub
    /\ (sub = "" \/ exists rest, sub = String "/"%char rest).
Proof.
  apply UrlHasPrefix_iff in Hpre.
  assert (Hsub : exists sub,
             cleanURL url = String.append (cleanURL prefix) sub
             /\ (sub = "" \/ exists rest, sub = String "/"%char rest)).
  { destruct Hpre as [H|[rest H]].
    - exists "". rewrite append_empty_r. split; [assumption|now left].
    - exists (String "/"%char rest). split; [assumption|right; now exists rest]. }
  destruct Hsub as [sub [Heq Hshape]]. exists sub.
  split; [|split; assumption].
  unfold GetSubURL. cbv zeta. rewrite Heq.
  destruct (Nat.ltb_spec (String.length (String.append (cleanURL prefix) sub))
                         (String.length (cleanURL prefix))) as [Hlt|_].
  - rewrite length_append in Hlt. lia.
  - now rewrite substring_skip.
Qed.

Lemma GetSubURL_splits_witness :
  GetSubURL "/api/v0/" "/api" = Some "/v0"
  /\ GetSubURL "/a" "/abc" = None.
Proof.
  destruct (GetSubURL_splits "/api/v0/" "/api" eq_refl) as [sub [H1 [H2 _]]].
  split; [|reflexivity].
  rewrite H1. f_equal. vm_compute in H2. now inversion H2.
Defined.

Lemma UrlHasPrefix_refl (url : string) : UrlHasPrefix url url = true.
Proof. apply UrlHasPrefix_iff. now left. Qed.

Lemma UrlHasPrefix_empty (url : string) : UrlHasPrefix url "" = true.
Proof.
  apply UrlHasPrefix_iff. cbn [cleanURL].
  unfold cleanURL. destruct url as [|ch url]; [now left|].
  destruct (Ascii.eqb_spec ch "/"%char) as [->|Hne].
  - destruct (TrimRight_slash_head "/"%char url) as [H|[t H]]; rewrite H;
      [now left|right; now exists t].
  - destruct (TrimRight_slash_head "/"%char (String ch url)) as [H|[t H]]; rewrite H;
      [now left|right; now exists t].
Qed.

Lemma existsb_eqb_In (x : string) (l : list string) :
  existsb (String.eqb x) l = true <-> In x l.
Proof.
  rewrite existsb_exists. split.
  - intros [y [Hy Heq]]. apply String.eqb_eq in Heq. now subst.
  - intros H. exists x. split; [assumption|apply String.eqb_refl].
Qed.

Lemma longest_match_spec (path : string) (prefixes : list string) :
  forall m0,
    (longest_match path prefixes m0 = m0
     \/ (In (longest_match path prefixes m0) prefixes
         /\ UrlHasPrefix path (longest_match path prefixes m0) = true))
    /\ (String.length m0 <= String.length (longest_match path prefixes m0))%nat
    /\ (forall k, In k prefixes -> UrlHasPrefix path k = true ->
                  (String.length k <= String.length (longest_match path prefixes m0))%nat).
Proof.
  induction prefixes as [|p prefixes IH]; intros m0; cbn [longest_match].
  - split; [now left|]. split; [lia|]. intros k [].
  - destruct (UrlHasPrefix path p) eqn:Hp; cbn [andb].
    + destruct (Nat.ltb_spec (String.length m0) (String.length p)) as [Hlt|Hge].
      * destruct (IH p) as [Hin [Hlen Hmax]]. split; [|split].
        -- right. destruct Hin as [->|[Hin Hm]]; [split; [now left|assumption]|].
           split; [now right|assumption].
        -- lia.
        -- intros k [<-|Hk] Hm; [assumption|now apply Hmax].
      * destruct (IH m0) as [Hin [Hlen Hmax]]. split; [|split].
        -- destruct Hin as [Hin|[Hin Hm]]; [now left|right]. split; [now right|assumption].
        -- assumption.
        -- intros k [<-|Hk] Hm; [lia|now apply Hmax].
    + destruct (IH m0) as [Hin [Hlen Hmax]]. split; [|split].
      * destruct Hin as [Hin|[Hin Hm]]; [now left|right]. split; [now right|assumption].
      * assumption.
      * intros k [<-|Hk] Hm; [rewrite Hp in Hm; discriminate|now apply Hmax].
Qed.

(** X20. How the tracing middleware picks a handler, whatever the order in
    which the handler map is visited: a path that is itself a key gets that
    key's handler; otherwise the handler of a key that is a prefix of the
    path and is as long as any key that is one; and the no-op handler exactly
    when no key is a prefix of the path. *)
Theorem Middleware_longest_prefix (prefixes : list string) (path : string) :
  (In path prefixes -> Middleware prefixes path = Some path)
  /\ (forall k, Middleware prefixes path = Some k ->
                In k prefixes /\ UrlHasPrefix path k = true
                /\ (k <> path ->
                    forall k', In k' prefixes -> UrlHasPrefix path k' = true ->
                               (String.length k' <= String.length k)%nat))
  /\ (Middleware prefixes path = None <->
      forall k, In k prefixes -> UrlHasPrefix path k = false).
Proof.
  unfold Middleware. cbv zeta.
  destruct (longest_match_spec path prefixes "") as [Hin [_ Hmax]].
  set (m := longest_match path prefixes "") in *.
  split; [|split].
  - intros H. apply existsb_eqb_In in H. now rewrite H.
  - intros k. destruct (existsb (String.eqb path) prefixes) eqn:Hex.
    + intros H; inversion H; subst k. apply existsb_eqb_In in Hex.
      split; [assumption|]. split; [apply UrlHasPrefix_refl|]. intros Hne; now elim Hne.
    + destruct (existsb (String.eqb m) prefixes) eqn:Hm; [|discriminate].
      intros H; inversion H; subst k. apply existsb_eqb_In in Hm.
      split; [assumption|]. split.
      * destruct Hin as [->|[_ Hp]]; [apply UrlHasPrefix_empty|assumption].
      * intros _. exact Hmax.
  - split.
    + destruct (existsb (String.eqb path) prefixes) eqn:Hex; [discriminate|].
      destruct (existsb (String.eqb m) prefixes) eqn:Hm; [discriminate|]. intros _.
      intros k Hk. destruct (UrlHasPrefix path k) eqn:Hp; [|reflexivity].
      assert (Hm0 : m = "").
      { destruct Hin as [H|[H _]]; [assumption|].
        apply existsb_eqb_In in H. rewrite H in Hm. discriminate. }
      pose proof (Hmax k Hk Hp) as Hlen. rewrite Hm0 in Hlen.
      destruct k; [|cbn in Hlen; lia].
      apply existsb_eqb_In in Hk. rewrite <- Hm0, Hm in Hk. discriminate.
    + intros Hnone.
      assert (Hnot : forall x, UrlHasPrefix path x = true ->
                               existsb (String.eqb x) prefixes = false).
      { intros x Hx. destruct (existsb (String.eqb x) prefixes) eqn:Hex; [|reflexivity].
        apply existsb_eqb_In in Hex. rewrite (Hnone x Hex) in Hx. discriminate. }
      rewrite (Hnot path (UrlHasPrefix_refl path)).
      rewrite Hnot; [reflexivity|].
      destruct Hin as [->|[_ Hp]]; [apply UrlHasPrefix_empty|assumption].
Qed.

(** * The static auth registry *)

Lemma fold_left_snoc {A B} (f : A -> B) (l : list A) (acc : list B) :
  fold_left (fun providers kv => providers ++ [f kv]) l acc = acc ++ map f l.
Proof.
  revert acc. induction l as [|a l IH]; intros acc; cbn.
  - now rewrite app_nil_r.
  - rewrite IH, <- app_assoc. reflexivity.
Qed.

Lemma static_ListProviders_eq (rules : static.Rules) :
  static.ListProviders rules
  = repeat None (List.length rules)
    ++ map (fun kv => Some {| static.ProviderType := fst kv;
                              static.Address := snd kv |}) rules.
Proof. unfold static.ListProviders. apply fold_left_snoc. Qed.

Lemma lookup_In (rules : static.Rules) (k v : string) :
  lookup rules k = Some v -> In (k, v) rules.
Proof.
  induction rules as [|[k0 v0] rules IH]; cbn; [discriminate|].
  destruct (String.eqb_spec k0 k) as [->|Hne].
  - intros H; inversion H; now left.
  - intros H; right; now apply IH.
Qed.

Lemma In_lookup (rules : static.Rules) (k v : string) :
  NoDup (map fst rules) -> In (k, v) rules -> lookup rules k = Some v.
Proof.
  induction rules as [|[k0 v0] rules IH]; cbn; [intros _ []|].
  intros Hnd Hin. inversion Hnd as [|? ? Hnotin Hnd']; subst.
  destruct Hin as [Heq|Hin].
  - inversion Heq; subst. now rewrite String.eqb_refl.
  - destruct (String.eqb_spec k0 k) as [->|Hne]; [|now apply IH].
    elim Hnotin. apply in_map_iff. now exists (k, v).
Qed.

(** X21. What [ListProviders] returns: a slice twice as long as the rule
    set, made of one nil entry per rule followed by one provider per rule,
    in the order the rules were visited. *)
Theorem static_ListProviders_shape (rules : static.Rules) :
  List.length (static.ListProviders rules) = (2 * List.length rules)%nat
  /\ firstn (List.length rules) (static.ListProviders rules)
     = repeat None (List.length rules)
  /\ skipn (List.length rules) (static.ListProviders rules)
     = map (fun kv => Some {| static.ProviderType := fst kv;
                              static.Address := snd kv |}) rules.
Proof.
  rewrite static_ListProviders_eq.
  assert (Hlen : List.length (repeat (@None static.ProviderInfo) (List.length rules))
                 = List.length rules) by apply repeat_length.
  split; [|split].
  - rewrite length_app, length_map, Hlen. lia.
  - rewrite <- Hlen at 1. rewrite firstn_app, firstn_all, Nat.sub_diag. cbn.
    now rewrite app_nil_r.
  - rewrite <- Hlen at 1. rewrite skipn_app, skipn_all, Nat.sub_diag. reflexivity.
Qed.

(** X22. Listing and lookup agree: for a rule set with distinct keys, a
    provider is among the entries [ListProviders] returns exactly when
    [GetProvider] returns it for its type; a type with no rule is answered
    with NotFound. *)
Theorem static_registry_agrees (rules : static.Rules) (p : static.ProviderInfo)
        (Hkeys : NoDup (map fst rules)) :
  (In (Some p) (static.ListProviders rules) <->
   static.GetProvider rules (static.ProviderType p) = Ok p)
  /\ (forall authType,
         ~ In authType (map fst rules) ->
         static.GetProvider rules authType = Error NotFound).
Proof.
  split.
  - rewrite static_ListProviders_eq. unfold static.GetProvider. split.
    + intros Hin. apply in_app_or in Hin as [Hin|Hin].
      * apply repeat_spec in Hin. discriminate.
      * apply in_map_iff in Hin as [[k v] [Heq Hin]]. inversion Heq; subst. cbn.
        now rewrite (In_lookup rules k v Hkeys Hin).
    + destruct (lookup rules (static.ProviderType p)) as [address|] eqn:Hl;
        [|discriminate].
      intros H; inversion H as [Hp]. apply in_or_app. right.
      apply in_map_iff. exists (static.ProviderType p, address). split.
      * cbn. now rewrite Hp.
      * now apply lookup_In.
  - intros authType Hno. unfold static.GetProvider.
    destruct (lookup rules authType) as [address|] eqn:Hl; [|reflexivity].
    elim Hno. apply in_map_iff. exists (authType, address).
    split; [reflexivity|now apply lookup_In].
Qed.

Lemma static_registry_agrees_witness :
  let rules := [("basic", "localhost:19000"); ("publicshares", "localhost:19001")] in
  let p := {| static.ProviderType := "publicshares";
              static.Address := "localhost:19001" |} in
  static.GetProvider rules "publicshares" = Ok p
  /\ static.GetProvider rules "oidc" = Error NotFound.
Proof.
  cbv zeta.
  assert (Hkeys : NoDup (map fst [("basic", "localhost:19000");
                                  ("publicshares", "localhost:19001")])).
  { cbn. repeat constructor; cbn; intuition discriminate. }
  destruct (static_registry_agrees
              [("basic", "localhost:19000"); ("publicshares", "localhost:19001")]
              {| static.ProviderType := "publicshares";
                 static.Address := "localhost:19001" |} Hkeys) as [H1 H2].
  split.
  - apply H1. right. right. right. now left.
  - apply H2. cbn. intuition discriminate.
Defined.

(** * Credentials of a public share request *)




(** * The auth provider service *)

(** X24. The status of an authentication: unless the auth manager panics,
    [Authenticate] returns a response and no error; the status is OK
    exactly when the client id is not blocked and the auth manager accepted
    the credentials, and only then does the response carry a user and a
    token scope, those of the manager; a blocked client id is answered with
    PERMISSION_DENIED whatever the manager would say. *)
Theorem Authenticate_status {U S : Type} (IsBlocked : string -> bool)
        (authmgr : string -> string -> result (U * S)) (id secret : string) :
  (authmgr id secret <> Error Panic \/ IsBlocked id = true ->
   exists res, authprovider.Authenticate IsBlocked authmgr id secret = Ok res)
  /\ (forall res,
         authprovider.Authenticate IsBlocked authmgr id secret = Ok res ->
         (authprovider.Status res = authprovider.CODE_OK <->
          IsBlocked id = false /\ exists u s, authmgr id secret = Ok (u, s))
         /\ (authprovider.Status res <> authprovider.CODE_OK ->
             authprovider.User res = None /\ authprovider.TokenScope res = None)
         /\ (forall u s, authmgr id secret = Ok (u, s) -> IsBlocked id = false ->
                         authprovider.User res = Some u
                         /\ authprovider.TokenScope res = Some s)
         /\ (IsBlocked id = true ->
             authprovider.Status res = authprovider.CODE_PERMISSION_DENIED)).
Proof.
  unfold authprovider.Authenticate. split.
  - intros H. destruct (IsBlocked id); [now eexists|].
    destruct (authmgr id secret) as [[u s]|[| |msg|]]; try (now eexists).
    destruct H as [H|H]; [now elim H|discriminate].
  - intros res.
    assert (Hno : forall e : error,
               ~ (exists (u : U) (s : S), @Error (U * S) e = Ok (u, s))).
    { intros e [u [s H]]. discriminate. }
    destruct (IsBlocked id).
    + intros H; inversion H; subst res; cbn.
      repeat split; intros; try discriminate; try congruence.
      destruct H0; discriminate.
    + destruct (authmgr id secret) as [[u s]|[| |msg|]];
        intros H; inversion H; subst res; cbn;
        repeat split; intros; try discriminate; try congruence; eauto;
        match goal with
        | H0 : _ /\ (exists _ _, Error ?e = _) |- _ =>
            destruct H0 as [_ H0]; now apply Hno in H0
        end.
Qed.

(** * The registry of tracer providers *)

Lemma Load_Store_same {TP} (reg : tracing.Registry TP) (name : string) (tp : TP) :
  tracing.Load TP (tracing.Store TP reg name tp) name = Some tp.
Proof.
  induction reg as [|[k v] reg IH]; cbn.
  - now rewrite String.eqb_refl.
  - destruct (String.eqb k name) eqn:Hk; cbn; now rewrite Hk.
Qed.

Lemma Load_Store_other {TP} (reg : tracing.Registry TP) (name other : string) (tp : TP) :
  other <> name ->
  tracing.Load TP (tracing.Store TP reg name tp) other = tracing.Load TP reg other.
Proof.
  intros Hne. induction reg as [|[k v] reg IH]; cbn.
  - destruct (String.eqb_spec name other) as [H|_]; [now elim Hne|reflexivity].
  - destruct (String.eqb_spec k name) as [->|Hk]; cbn.
    + destruct (String.eqb_spec name other) as [H|_]; [now elim Hne|reflexivity].
    + now rewrite IH.
Qed.

(** X25. Tracer providers are memoised per service name: whatever
    [tracerProvider] returned for a name, the no-op provider of a failed
    hostname lookup included, it returns again on every later call for that
    name without touching the registry, even if the hostname or the resource
    would by then give another answer; the providers of other names are
    left as they were. *)
Theorem tracerProvider_memoised
        {TP : Type} (noop noop' : TP) (hostname hostname' : option string)
        (newProvider newProvider' : string -> string -> option TP)
        (reg : tracing.Registry TP) (name : string) :
  let first := tracing.tracerProvider TP noop hostname newProvider reg name in
  tracing.tracerProvider TP noop' hostname' newProvider' (snd first) name
  = (fst first, snd first)
  /\ tracing.Load TP (snd first) name = Some (fst first)
  /\ (forall other, other <> name ->
                    tracing.Load TP (snd first) other = tracing.Load TP reg other).
Proof.
  cbv zeta. unfold tracing.tracerProvider.
  destruct (tracing.Load TP reg name) as [tp|] eqn:Hl.
  - cbn. rewrite Hl. repeat split.
  - destruct hostname as [h|]; [destruct (newProvider name h) as [tp|]|]; cbn;
      rewrite Load_Store_same; repeat split;
      intros other Hne; now apply Load_Store_other.
Qed.

(** * Further properties of updates and lookups *)


Section Lookups.
Context {E : Externals}.

Lemma GetPublicShare_by_id_ok (c : config) (now : Time) (db db' : Table)
      (u : user.User) (i : string) (s : link.PublicShare) :
  GetPublicShare c now db u (link.RefId i) false = (Ok s, db') ->
  exists r,
    In r db
    /\ getByID_where i (conversions.FormatUserID (user.Id u)) r = true
    /\ s = conversions.ConvertToCS3PublicShare (scan_keep_id i r).
Proof.
  unfold GetPublicShare, getByID.
  destruct (QueryRow _ db) as [r|] eqn:Hq; [|discriminate].
  destruct (expired now _); [discriminate|]. rewrite andb_false_r.
  intros H; inversion H; subst. apply QueryRow_In in Hq as [Hin Hw].
  exists r. repeat split; assumption.
Qed.

Lemma AddSignature_protected (now : Time) (s s' : link.PublicShare) (pw : string) :
  AddSignature now s pw = Ok s' ->
  link.PasswordProtected s' = link.PasswordProtected s.
Proof.
  unfold AddSignature. destruct (CreateSignature _ _ _); intros H; inversion H.
  reflexivity.
Qed.

Lemma ListPublicShares_loop_signed (c : config) (now : Time) (sign : bool) :
  forall rows acc db shares db',
    ListPublicShares_loop c now sign rows acc db = (Ok shares, db') ->
    forall s, In s shares ->
      In s acc
      \/ (link.Sig s <> None -> sign = true /\ link.PasswordProtected s = true).
Proof.
  induction rows as [|r rows IH]; intros acc db shares db' H s Hs;
    cbn [ListPublicShares_loop] in H.
  - inversion H; subst. now left.
  - destruct (expired now _); [now apply (IH _ _ _ _ H)|].
    destruct (link.PasswordProtected _ && sign) eqn:Hps.
    + destruct (AddSignature now _ _) as [s1|e] eqn:HA; [|discriminate].
      destruct (IH _ _ _ _ H s Hs) as [Ha|Hsig]; [|now right].
      apply in_app_or in Ha as [Ha|[<-|[]]]; [now left|].
      right. intros _. apply andb_prop in Hps as [Hp ->].
      split; [reflexivity|]. now rewrite (AddSignature_protected _ _ _ _ HA).
    + destruct (IH _ _ _ _ H s Hs) as [Ha|Hsig]; [|now right].
      apply in_app_or in Ha as [Ha|[<-|[]]]; [now left|].
      right. intros Hsig. now elim Hsig.
Qed.

End Lookups.

(** X27. An update by id is read back: when [UpdatePublicShare] succeeds on
    an id reference, the share it returns is built from a row of the caller
    carrying that id, after the write: it shows the value written for the
    update kind, and its modification time is the second of the update. *)
Theorem update_by_id_is_read_back
        {E : Externals} (c : config) (now : Time) (db db' : Table) (u : user.User)
        (i : string) (upd : option link.Update) (s : link.PublicShare)
        (Hok : UpdatePublicShare c now db u
                 {| link.Ref := link.RefId i; link.GetUpdate := upd |} = (Ok s, db')) :
  exists a r,
    paramsMap c upd = Ok a
    /\ In r db
    /\ selected (conversions.FormatUserID (user.Id u)) (link.RefId i) r = true
    /\ s = conversions.ConvertToCS3PublicShare
             (scan_keep_id i (set_stime (Unix now) (assign a r)))
    /\ reflects a s
    /\ link.Mtime s = {| typespb.Seconds := uint64 (Unix now); typespb.Nanos := 0 |}.
Proof.
  unfold UpdatePublicShare in Hok. cbn [link.Ref link.GetUpdate] in Hok.
  destruct (paramsMap c upd) as [a|e]; [|discriminate].
  set (uid := conversions.FormatUserID (user.Id u)) in *.
  apply GetPublicShare_by_id_ok in Hok as [r' [Hin [Hw Hs]]].
  unfold ExecUpdate in Hin. apply in_map_iff in Hin as [r [Hr Hin]].
  assert (Hsel : update_id_where i uid r = true).
  { destruct (update_id_where i uid r) eqn:Hp; [reflexivity|]. subst r'.
    fold uid in Hw. unfold getByID_where in Hw. unfold update_id_where in Hp.
    apply andb_prop in Hw as [Hw Ho]. apply andb_prop in Hw as [_ Hi].
    now rewrite Hi, Ho in Hp. }
  rewrite Hsel in Hr. subst r'.
  exists a, r. split; [reflexivity|]. split; [assumption|]. split; [exact Hsel|].
  split; [exact Hs|]. subst s. split.
  - destruct a; cbn; reflexivity.
  - destruct a; reflexivity.
Qed.

Lemma update_by_id_is_read_back_witness :
  exists s,
    fst (UpdatePublicShare (E := ex_externals) ex_config ex_morning
           [ex_row "1" "tok" "alice"] ex_alice (ex_rename (link.RefId "1") "renamed"))
    = Ok s
    /\ link.DisplayName s = "renamed".
Proof.
  destruct (update_by_id_is_read_back (E := ex_externals) ex_config ex_morning
              [ex_row "1" "tok" "alice"] _ ex_alice "1"
              (link.GetUpdate (ex_rename (link.RefId "1") "renamed")) _ eq_refl)
    as [a [r [Ha [_ [_ [Hs [Hrefl _]]]]]]].
  cbn in Ha. inversion Ha; subst a. cbn in Hrefl.
  eexists. split; [reflexivity|]. rewrite <- Hrefl. reflexivity.
Defined.

(** X28. The lookup by id is private: a share [GetPublicShare] returns for
    an id reference has the caller as owner or as creator, and the id that
    was asked for. *)
Theorem get_by_id_is_private
        {E : Externals} (c : config) (now : Time) (db db' : Table) (u : user.User)
        (i : string) (sign : bool) (s : link.PublicShare)
        (Hok : GetPublicShare c now db u (link.RefId i) sign = (Ok s, db')) :
  (user.OpaqueId (link.Owner s) = conversions.FormatUserID (user.Id u)
   \/ user.OpaqueId (link.Creator s) = conversions.FormatUserID (user.Id u))
  /\ link.Id s = i.
Proof.
  unfold GetPublicShare, getByID in Hok.
  destruct (QueryRow _ db) as [r|] eqn:Hq; [|discriminate].
  apply QueryRow_In in Hq as [_ Hw].
  unfold getByID_where in Hw. apply andb_prop in Hw as [_ Ho].
  set (s0 := conversions.ConvertToCS3PublicShare (scan_keep_id i r)) in *.
  assert (H0 : (user.OpaqueId (link.Owner s0) = conversions.FormatUserID (user.Id u)
                \/ user.OpaqueId (link.Creator s0) = conversions.FormatUserID (user.Id u))
               /\ link.Id s0 = i).
  { split; [|reflexivity]. unfold owner_or_initiator in Ho.
    apply orb_prop in Ho as [Ho|Ho]; [left|right]; cbn; now apply col_eq_coalesce. }
  assert (Hun : unsigned s = unsigned s0).
  { destruct (expired now s0); [discriminate|].
    destruct (link.PasswordProtected s0 && sign).
    - destruct (AddSignature now s0 _) as [s1|e] eqn:HA; [|discriminate].
      inversion Hok; subst. now apply AddSignature_unsigned in HA.
    - now inversion Hok. }
  change (link.Owner s) with (link.Owner (unsigned s)).
  change (link.Creator s) with (link.Creator (unsigned s)).
  change (link.Id s) with (link.Id (unsigned s)).
  rewrite Hun. exact H0.
Qed.

Lemma get_by_id_is_private_witness :
  GetPublicShare (E := ex_externals) ex_config ex_evening ex_expiry_db
                 ex_bob (link.RefId "2") false = (Error NotFound, ex_expiry_db)
  /\ link.Id (conversions.ConvertToCS3PublicShare (scan ex_live_row)) = "2".
Proof.
  split; [reflexivity|].
  apply (get_by_id_is_private (E := ex_externals) ex_config ex_evening ex_expiry_db
           ex_expiry_db ex_alice "2" false
           (conversions.ConvertToCS3PublicShare (scan ex_live_row)) eq_refl).
Defined.

(** X29. A signature is attached only on request and only to a protected
    share: a share returned by [GetPublicShare], [ListPublicShares] or
    [GetPublicShareByToken] carries a signature only if signing was asked
    for and the share is password protected. *)
Theorem signature_only_on_request
        {E : Externals} (c : config) (now : Time) (db : Table) (u : user.User)
        (ref : link.PublicShareReference) (filters : list link.Filter)
        (tkn : string) (auth : link.PublicShareAuthentication) (sign : bool) :
  let only_if_asked (s : link.PublicShare) :=
    link.Sig s <> None -> sign = true /\ link.PasswordProtected s = true in
  (forall s db', GetPublicShare c now db u ref sign = (Ok s, db') -> only_if_asked s)
  /\ (forall shares db',
         ListPublicShares c now db u filters sign = (Ok shares, db') ->
         forall s, In s shares -> only_if_asked s)
  /\ (forall s db',
         GetPublicShareByToken c now db tkn auth sign = (Ok s, db') -> only_if_asked s).
Proof.
  cbv zeta. split; [|split].
  - intros s db'. unfold GetPublicShare.
    match goal with |- context [match ?l with Ok _ => _ | Error _ => _ end] =>
      destruct l as [[s0 pw]|e] eqn:Hl end; [|discriminate].
    assert (Hs0 : link.Sig s0 = None).
    { destruct ref as [i|t|]; [| |discriminate].
      - unfold getByID in Hl. destruct (QueryRow _ db); inversion Hl. reflexivity.
      - destruct (negb (String.eqb t "")); [|discriminate].
        unfold getByToken in Hl. destruct (QueryRow _ db); inversion Hl. reflexivity. }
    destruct (expired now s0); [discriminate|].
    destruct (link.PasswordProtected s0 && sign) eqn:Hps.
    + destruct (AddSignature now s0 pw) as [s1|e] eqn:HA; [|discriminate].
      intros H _; inversion H; subst. apply andb_prop in Hps as [Hp ->].
      split; [reflexivity|]. now rewrite (AddSignature_protected _ _ _ _ HA).
    + intros H Hsig; inversion H; subst. now elim Hsig.
  - intros shares db' H s Hs. unfold ListPublicShares in H.
    destruct (uidOwnerFilters u filters); [|discriminate].
    destruct (ListPublicShares_loop_signed _ _ _ _ _ _ _ _ H s Hs) as [[]|Hsig].
    exact Hsig.
  - intros s db'. unfold GetPublicShareByToken.
    destruct (QueryRow _ db) as [r|]; [|discriminate].
    destruct (expired now _); [discriminate|].
    destruct (negb (String.eqb _ "")) eqn:Hsw.
    + destruct (negb (authenticate now _ _ auth)); [discriminate|].
      destruct sign.
      * destruct (AddSignature now _ _) as [s1|e] eqn:HA; [|discriminate].
        intros H _; inversion H; subst. split; [reflexivity|].
        rewrite (AddSignature_protected _ _ _ _ HA). exact Hsw.
      * intros H Hsig; inversion H; subst. now elim Hsig.
    + intros H Hsig; inversion H; subst. now elim Hsig.
Qed.
